(** * UniFi IP reservation importer: a shallow embedding of [unifi.py]

    The script logs into a UniFi controller, builds a map from VLAN numbers
    to network identifiers, then reads [devices.csv] and posts one static
    reservation per valid row.  This file embeds the script as executable
    Rocq definitions and proves properties of them.

    Modelling conventions
    - Python [str] values are [string]s and stand for ASCII text: the text
      functions below ([strip], [replace], [upper]) follow CPython on the
      characters 0..127 and leave every other character alone.
    - Python dictionaries are [gmap]s; a JSON document is a [json] value.
    - The controller, the console and the CSV file are the environment: the
      script runs in a state and exception monad whose state is the log of
      everything the script did (prints and HTTP requests) together with the
      session's CSRF header.
    - The library functions [int] (on strings) and [ipaddress.ip_address]
      are parameters of the development; [PyLib] gives executable models of
      both, used for the concrete examples. *)

From Stdlib Require Import ZArith String Ascii List Bool Lia.
From stdpp Require Import base option gmap strings list sorting.

Open Scope string_scope.
Open Scope list_scope.
Open Scope Z_scope.

(** ** Text *)

Module Text.

(** [str.isspace] on ASCII: TAB, LF, VT, FF, CR, FS, GS, RS, US, space. *)
Definition is_space (c : ascii) : bool :=
  let n := nat_of_ascii c in
  ((9 <=? n)%nat && (n <=? 13)%nat) || ((28 <=? n)%nat && (n <=? 32)%nat).

Fixpoint lstrip (s : string) : string :=
  match s with
  | EmptyString => EmptyString
  | String c s' => if is_space c then lstrip s' else s
  end.

Fixpoint rstrip (s : string) : string :=
  match s with
  | EmptyString => EmptyString
  | String c s' =>
      match rstrip s' with
      | EmptyString => if is_space c then EmptyString else String c EmptyString
      | t => String c t
      end
  end.

(** [s.strip()] *)
Definition strip (s : string) : string := rstrip (lstrip s).

Fixpoint map_chars (f : ascii -> ascii) (s : string) : string :=
  match s with
  | EmptyString => EmptyString
  | String c s' => String (f c) (map_chars f s')
  end.

(** [s.replace(old, new)] for one-character [old] and [new]. *)
Definition replace (old new : ascii) (s : string) : string :=
  map_chars (fun c => if Ascii.eqb c old then new else c) s.

Definition upper_char (c : ascii) : ascii :=
  let n := nat_of_ascii c in
  if ((97 <=? n)%nat && (n <=? 122)%nat)%bool then ascii_of_nat (n - 32) else c.

(** [s.upper()] *)
Definition upper (s : string) : string := map_chars upper_char s.

Fixpoint all_chars (p : ascii -> bool) (s : string) : bool :=
  match s with
  | EmptyString => true
  | String c s' => p c && all_chars p s'
  end.

End Text.

(** ** MAC normalisation (unifi.py, lines 109-110)

<<
    raw = row["MAC"].strip()
    mac = raw.replace('-', ':').replace('.', ':').upper()
>> *)

Definition normalize_mac (field : string) : string :=
  let raw := Text.strip field in
  Text.upper (Text.replace "." ":" (Text.replace "-" ":" raw)).

(** The characters of a normalised MAC: upper-case hex digits and colons. *)
Definition mac_char (c : ascii) : bool :=
  let n := nat_of_ascii c in
  ((48 <=? n)%nat && (n <=? 57)%nat) || ((65 <=? n)%nat && (n <=? 70)%nat)
  || (n =? 58)%nat.

(** A colon-separated upper-case MAC: only [mac_char]s. *)
Definition colon_upper (s : string) : bool := Text.all_chars mac_char s.

(** ** Python values *)

(** A decoded JSON value, as [r.json()] returns it (numbers are integers:
    the controller's [vlan] field is one). *)
#[warnings="-register-all"]
Inductive json :=
| JNull
| JBool (b : bool)
| JInt (n : Z)
| JStr (s : string)
| JArr (items : list json)
| JObj (members : list (string * json)).

(** A network object of the controller's list: a JSON object, read by key. *)
Abbreviation network := (gmap string json).

(** Python truthiness, the test of [if not x]. *)
Definition truthy (v : json) : bool :=
  match v with
  | JNull => false
  | JBool b => b
  | JInt n => negb (n =? 0)
  | JStr s => negb (String.eqb s "")
  | JArr items => match items with [] => false | _ => true end
  | JObj members => match members with [] => false | _ => true end
  end.

(** [v == 1]: the integer 1, or [True]. *)
Definition eq_one (v : json) : bool :=
  match v with
  | JInt n => n =? 1
  | JBool b => b
  | _ => false
  end.

(** [v == s] for a string literal [s]. *)
Definition eq_str (v : json) (s : string) : bool :=
  match v with
  | JStr t => String.eqb t s
  | _ => false
  end.

(** The exceptions the script can meet; all are subclasses of [Exception]. *)
Inductive exn :=
| RequestException   (* requests.exceptions.RequestException and subclasses *)
| RuntimeError
| KeyError
| ValueError
| TypeError
| AttributeError
| FileNotFoundError
| OSError            (* any other failure of open() *)
| CsvError.          (* csv.Error, or a decoding error, while reading *)

Definition exn_eqb (a b : exn) : bool :=
  match a, b with
  | RequestException, RequestException | RuntimeError, RuntimeError
  | KeyError, KeyError | ValueError, ValueError | TypeError, TypeError
  | AttributeError, AttributeError | FileNotFoundError, FileNotFoundError
  | OSError, OSError | CsvError, CsvError => true
  | _, _ => false
  end.

(** ** The environment: requests, responses, console *)

(** The body of the reservation request (unifi.py, lines 121-130). *)
Record payload := {
  mac : string;
  fixed_ip : string;
  name : string;
  network_id : json;
  use_fixedip : bool;
  note : string;
  vlan_enabled : bool;
  vlan : Z
}.

Inductive http_method := GET | POST.

Inductive request_body :=
| NoBody
| LoginBody (username password : string)
| UserBody (p : payload).

(** One HTTP request of the session, with the session's CSRF header. *)
Record request := {
  method : http_method;
  url : string;
  csrf_header : option string;
  body : request_body
}.

(** What the script reads of a response. *)
Record response := {
  ok : bool;                          (* status below 400 *)
  x_csrf_token : option string;       (* r.headers.get("x-csrf-token") *)
  text : string;                      (* r.text *)
  json_data : exn + list network      (* r.json().get("data", []) *)
}.

(** The lines the script prints, with their interpolated values. *)
Inductive message :=
| MsgSecretsNotFound
| MsgSecretsHint
| MsgConnecting (udm : string)
| MsgFound (n : nat)
| MsgMappedMain (id : json)
| MsgMappedVlan (vlan_id : Z) (id subnet : json)
| MsgAvailable (vlans : list Z)
| MsgCsvColumns
| MsgUnknownVlan (vlan_num : Z) (mac_field : option string)
| MsgInvalidIP (ip_address mac : string)
| MsgSetting (name mac fixed_ip : string) (vlan_num : Z)
| MsgOk (mac fixed_ip : string) (vlan_num : Z)
| MsgFailed (mac text : string)
| MsgSummary (success_count error_count : nat)
| MsgCsvNotFound
| MsgNetworkError (e : exn)
| MsgError (e : exn)
| MsgLoggedOut.

Inductive event :=
| Print (m : message)
| Http (r : request).

(** The controller answers a request knowing everything that happened
    before; [None] is a transport failure ([RequestException]). *)
Abbreviation controller := (list event -> request -> option response).

(** [devices.csv]: missing, unreadable, or the records [csv.reader] yields
    (the first is the header; [None] is a record on which the reader
    raises). *)
Inductive csv_source :=
| NoSuchFile
| OpenFails
| Records (records : list (option (list string))).

(** secrets.py *)
Record secrets := {
  UDM : string;
  USER : string;
  PASS : string;
  SITE : string
}.

(** ** The monad of the script: a log, the session header, exceptions and
    early [return] *)

Record state := {
  log : list event;
  session_csrf : option string   (* s.headers["x-csrf-token"] *)
}.

Inductive result (A : Type) :=
| Done (a : A)
| Returned           (* a [return] statement was executed *)
| Raised (e : exn).
Arguments Done {A} a.
Arguments Returned {A}.
Arguments Raised {A} e.

Definition M (A : Type) : Type := state -> result A * state.

Definition M_ret {A} (a : A) : M A := fun st => (Done a, st).

Definition M_bind {A B} (f : A -> M B) (m : M A) : M B :=
  fun st =>
    match m st with
    | (Done a, st') => f a st'
    | (Returned, st') => (Returned, st')
    | (Raised e, st') => (Raised e, st')
    end.

#[global] Instance M_mret : MRet M := @M_ret.
#[global] Instance M_mbind : MBind M := @M_bind.

Definition raise {A} (e : exn) : M A := fun st => (Raised e, st).

(** [return] *)
Definition return_ {A} : M A := fun st => (Returned, st).

Definition print (m : message) : M unit :=
  fun st => (Done tt, {| log := log st ++ [Print m]; session_csrf := session_csrf st |}).

(** [try: body except ...: handler]; [handler e = None] when no clause
    matches [e]. *)
Definition try_except {A} (body : M A) (handler : exn -> option (M A)) : M A :=
  fun st =>
    match body st with
    | (Raised e, st') =>
        match handler e with
        | Some h => h st'
        | None => (Raised e, st')
        end
    | other => other
    end.

(** [try: body finally: cleanup]: the cleanup always runs; its own
    exception or return replaces the outcome of the body. *)
Definition try_finally {A} (body : M A) (cleanup : M unit) : M A :=
  fun st =>
    let '(r, st1) := body st in
    match cleanup st1 with
    | (Done _, st2) => (r, st2)
    | (Returned, st2) => (Returned, st2)
    | (Raised e, st2) => (Raised e, st2)
    end.

(** [d[key]] *)
Definition getitem {V} (d : gmap string V) (key : string) : M V :=
  match d !! key with
  | Some v => mret v
  | None => raise KeyError
  end.

(** [field.strip()], where [field] may be [None]. *)
Definition strip_field (field : option string) : M string :=
  match field with
  | Some s => mret (Text.strip s)
  | None => raise AttributeError
  end.

(** ** The script *)

(** [DEBUG = True] (unifi.py, line 30) *)
Definition DEBUG : bool := true.

Definition debug (m : message) : M unit :=
  if DEBUG then print m else mret tt.

(** The columns the header must have (unifi.py, line 94). *)
Definition required_fields : list string := ["VLAN"; "MAC"; "Client Name"; "IP"].

(** The dictionary [csv.DictReader] builds from a record: the header's
    names zipped with the values (a repeated name keeps its last value),
    and [None] for every name beyond the record's length.  Values beyond
    the header's length go under the key [None], which the script never
    reads; they are left out. *)
Definition row_dict (fieldnames record : list string) : gmap string (option string) :=
  let d := fold_left (fun d kv => <[kv.1 := Some kv.2]> d) (zip fieldnames record) ∅ in
  fold_left (fun d key => <[key := None]> d) (drop (length record) fieldnames) d.

(** [sorted(list(vlan_map.keys()))] *)
Definition sorted_keys (vlan_map : gmap Z json) : list Z :=
  merge_sort Z.le (map_to_list vlan_map).*1.

Section Importer.

(** [int(s)] on a string: [None] when it raises [ValueError]. *)
Variable int_of_str : string -> option Z.

(** [ipaddress.ip_address(s)]: [false] when it raises [ValueError]. *)
Variable ip_address : string -> bool.

Variable cfg : secrets.
Variable server : controller.

(** [s.get(url, verify=False)] and [s.post(url, json=body, verify=False)] *)
Definition send (m : http_method) (u : string) (b : request_body) : M response :=
  fun st =>
    let rq := {| method := m; url := u; csrf_header := session_csrf st; body := b |} in
    let st' := {| log := log st ++ [Http rq]; session_csrf := session_csrf st |} in
    match server (log st) rq with
    | Some r => (Done r, st')
    | None => (Raised RequestException, st')
    end.

(** [r.raise_for_status()] *)
Definition raise_for_status (r : response) : M unit :=
  if ok r then mret tt else raise RequestException.

(** [s.headers.update({"x-csrf-token": csrf})] *)
Definition set_csrf (csrf : string) : M unit :=
  fun st => (Done tt, {| log := log st; session_csrf := Some csrf |}).

(** [int(v)] on a string field that may be [None]. *)
Definition int_field (field : option string) : M Z :=
  match field with
  | None => raise TypeError
  | Some s =>
      match int_of_str s with
      | Some n => mret n
      | None => raise ValueError
      end
  end.

(** [int(v)] on a JSON value. *)
Definition int_json (v : json) : M Z :=
  match v with
  | JInt n => mret n
  | JBool b => mret (if b then 1 else 0)
  | JStr s => int_field (Some s)
  | JNull | JArr _ | JObj _ => raise TypeError
  end.

(** The test of line 73:
    ['purpose' in net and net['purpose'] == 'corporate'
     and ('vlan' not in net or net.get('vlan') == 1)] *)
Definition corporate_default (net : network) : bool :=
  match net !! "purpose" with
  | Some purpose =>
      eq_str purpose "corporate"
      && match net !! "vlan" with
         | None => true
         | Some v => eq_one v
         end
  | None => false
  end.

(** [net.get("ip_subnet", "")] *)
Definition ip_subnet (net : network) : json :=
  default (JStr "") (net !! "ip_subnet").

(** The body of the loop over the networks (unifi.py, lines 72-83). *)
Definition net_step (net : network) (maps : gmap Z json * gmap Z json)
  : M (gmap Z json * gmap Z json) :=
  let '(vlan_map, subnet_map) := maps in
  if corporate_default net then
    id ← getitem net "_id";
    let vlan_map := <[1 := id]> vlan_map in
    let subnet_map := <[1 := ip_subnet net]> subnet_map in
    debug (MsgMappedMain id);;
    mret (vlan_map, subnet_map)
  else
    match net !! "vlan" with
    | Some v =>
        vlan_id ← int_json v;
        id ← getitem net "_id";
        let vlan_map := <[vlan_id := id]> vlan_map in
        let subnet_map := <[vlan_id := ip_subnet net]> subnet_map in
        debug (MsgMappedVlan vlan_id id (ip_subnet net));;
        mret (vlan_map, subnet_map)
    | None => mret (vlan_map, subnet_map)
    end.

(** [for net in network_data: ...] *)
Fixpoint for_nets (network_data : list network) (maps : gmap Z json * gmap Z json)
  : M (gmap Z json * gmap Z json) :=
  match network_data with
  | [] => mret maps
  | net :: rest => maps' ← net_step net maps; for_nets rest maps'
  end.

(** [vlan_map.get(vlan_num)]; Python's [None] is [JNull]. *)
Definition vlan_get (vlan_map : gmap Z json) (vlan_num : Z) : json :=
  default JNull (vlan_map !! vlan_num).

Section Rows.

Variable vlan_map : gmap Z json.
Variable api : string.

(** The body of the loop over the rows (unifi.py, lines 102-141), on
    the counters [(success_count, error_count)]. *)
Definition process_row (row : gmap string (option string)) (counts : nat * nat)
  : M (nat * nat) :=
  let '(success_count, error_count) := counts in
  vlan_field ← getitem row "VLAN";
  vlan_num ← int_field vlan_field;
  let net_id := vlan_get vlan_map vlan_num in
  if negb (truthy net_id) then
    mac_field ← getitem row "MAC";
    print (MsgUnknownVlan vlan_num mac_field);;
    mret (success_count, S error_count)
  else
    mac_field ← getitem row "MAC";
    raw ← strip_field mac_field;
    let mac := Text.upper (Text.replace "." ":" (Text.replace "-" ":" raw)) in
    ip_field ← getitem row "IP";
    ip ← strip_field ip_field;
    if negb (ip_address ip) then
      print (MsgInvalidIP ip mac);;
      mret (success_count, S error_count)
    else
      name_field ← getitem row "Client Name";
      client ← strip_field name_field;
      let payload :=
        {| mac := mac;
           fixed_ip := ip;
           name := client;
           network_id := net_id;
           use_fixedip := true;
           note := "Added by unifi.py script";
           vlan_enabled := true;
           vlan := vlan_num |} in
      debug (MsgSetting client mac ip vlan_num);;
      resp ← send POST api (UserBody payload);
      if ok resp then
        print (MsgOk mac ip vlan_num);;
        mret (S success_count, error_count)
      else
        print (MsgFailed mac (text resp));;
        mret (success_count, S error_count).

(** [for row in reader: ...]: [csv.DictReader] skips empty records and
    turns the others into dictionaries. *)
Fixpoint for_rows (fieldnames : list string) (records : list (option (list string)))
    (counts : nat * nat) : M (nat * nat) :=
  match records with
  | [] => mret counts
  | None :: _ => raise CsvError
  | Some record :: rest =>
      match record with
      | [] => for_rows fieldnames rest counts
      | _ :: _ =>
          counts' ← process_row (row_dict fieldnames record) counts;
          for_rows fieldnames rest counts'
      end
  end.

(** [reader.fieldnames]: the first record, [None] for an empty file. *)
Definition read_fieldnames (records : list (option (list string)))
  : M (option (list string)) :=
  match records with
  | [] => mret None
  | None :: _ => raise CsvError
  | Some header :: _ => mret (Some header)
  end.

(** [all(field in fieldnames for field in [...])]; [in None] raises. *)
Definition has_required (fieldnames : option (list string)) : M bool :=
  match fieldnames with
  | None => raise TypeError
  | Some names =>
      mret (forallb (fun field => bool_decide (field ∈ names)) required_fields)
  end.

(** [with open(CSV_PATH, newline="") as f: ...] (unifi.py, lines 92-143) *)
Definition with_csv (csv : csv_source) : M unit :=
  match csv with
  | NoSuchFile => raise FileNotFoundError
  | OpenFails => raise OSError
  | Records records =>
      fieldnames ← read_fieldnames records;
      complete ← has_required fieldnames;
      if negb complete then
        print MsgCsvColumns;;
        return_
      else
        '(success_count, error_count) ←
          for_rows (default [] fieldnames) (tail records) (0%nat, 0%nat);
        print (MsgSummary success_count error_count)
  end.

End Rows.

Definition base : string := "https://" +:+ UDM cfg.
Definition login : string := base +:+ "/api/auth/login".
Definition prefix : string := base +:+ "/proxy/network/api/s/" +:+ SITE cfg.
Definition api : string := prefix +:+ "/rest/user".

(** Steps 1 to 3 of [main()] (unifi.py, lines 48-86): log in, fetch the
    CSRF token, build the VLAN map. *)
Definition connect : M (gmap Z json) :=
  print (MsgConnecting (UDM cfg));;
  r ← send POST login (LoginBody (USER cfg) (PASS cfg));
  raise_for_status r;;
  r ← send GET (prefix +:+ "/self") NoBody;
  raise_for_status r;;
  csrf ← match x_csrf_token r with
         | Some t => if String.eqb t "" then raise RuntimeError else mret t
         | None => raise RuntimeError
         end;
  set_csrf csrf;;
  r ← send GET (prefix +:+ "/rest/networkconf") NoBody;
  raise_for_status r;;
  network_data ← match json_data r with
                 | inr data => mret data
                 | inl e => raise e
                 end;
  debug (MsgFound (length network_data));;
  '(vlan_map, subnet_map) ← for_nets network_data (∅, ∅);
  debug (MsgAvailable (sorted_keys vlan_map));;
  mret vlan_map.

(** Step 4 (unifi.py, lines 91-147): the inner [try] around the CSV. *)
Definition import_csv (vlan_map : gmap Z json) (csv : csv_source) : M unit :=
  try_except
    (with_csv vlan_map api csv)
    (fun e =>
       match e with
       | FileNotFoundError => Some (print MsgCsvNotFound;; return_)
       | _ => None
       end).

(** [main()] without its [finally] clause: the [try] block of lines 47-147
    with the two [except] clauses of lines 149-152. *)
Definition main_try (csv : csv_source) : M unit :=
  try_except
    (vlan_map ← connect; import_csv vlan_map csv)
    (fun e =>
       match e with
       | RequestException => Some (print (MsgNetworkError e))
       | _ => Some (print (MsgError e))
       end).

(** The [finally] clause (unifi.py, lines 154-159): log out, and swallow
    whatever goes wrong. *)
Definition logout : M unit :=
  try_except
    (send POST (base +:+ "/api/auth/logout") NoBody;;
     print MsgLoggedOut)
    (fun _ => Some (mret tt)).

Definition main (csv : csv_source) : M unit :=
  try_finally (main_try csv) logout.

End Importer.

(** The session before the first request. *)
Definition initial : state := {| log := []; session_csrf := None |}.

(** The whole script: the import of secrets.py (lines 21-26), then [main()].
    The result is the exit status and everything printed and requested. *)
Definition script (int_of_str : string -> option Z) (ip_address : string -> bool)
    (secrets_py : option secrets) (server : controller) (csv : csv_source)
  : Z * list event :=
  match secrets_py with
  | None => (1, [Print MsgSecretsNotFound; Print MsgSecretsHint])
  | Some cfg =>
      match main int_of_str ip_address cfg server csv initial with
      | (Raised _, st) => (1, log st)      (* uncaught: traceback, status 1 *)
      | (_, st) => (0, log st)
      end
  end.

(** ** Executable models of the two library functions

    These follow CPython 3.9-3.12 on ASCII text.  The theorems below hold
    for any [int_of_str] and [ip_address]; the models serve the concrete
    examples. *)

Module PyLib.

Definition is_digit (c : ascii) : bool :=
  let n := nat_of_ascii c in (48 <=? n)%nat && (n <=? 57)%nat.

Definition is_hex (c : ascii) : bool :=
  let n := nat_of_ascii c in
  is_digit c || ((65 <=? n)%nat && (n <=? 70)%nat) || ((97 <=? n)%nat && (n <=? 102)%nat).

Definition digit_value (c : ascii) : Z := Z.of_nat (nat_of_ascii c) - 48.

(** Decimal digits, single underscores allowed between digits. *)
Fixpoint digits (acc : Z) (after_digit : bool) (s : string) : option Z :=
  match s with
  | EmptyString => if after_digit then Some acc else None
  | String c s' =>
      if is_digit c then digits (10 * acc + digit_value c) true s'
      else if Ascii.eqb c "_" then
        if after_digit then digits acc false s' else None
      else None
  end.

(** [int(s)]: surrounding whitespace, an optional sign, digits. *)
Definition int_of_str (s : string) : option Z :=
  match Text.strip s with
  | String "-" s' => Z.opp <$> digits 0 false s'
  | String "+" s' => digits 0 false s'
  | t => digits 0 false t
  end.

(** [s.split(sep)] *)
Fixpoint split (sep : ascii) (s : string) : list string :=
  match s with
  | EmptyString => [EmptyString]
  | String c s' =>
      if Ascii.eqb c sep then EmptyString :: split sep s'
      else match split sep s' with
           | h :: t => String c h :: t
           | [] => [String c EmptyString]
           end
  end.

Fixpoint contains (c : ascii) (s : string) : bool :=
  match s with
  | EmptyString => false
  | String d s' => Ascii.eqb c d || contains c s'
  end.

(** One octet of a dotted quad: 1 to 3 digits, no leading zero, at most
    255. *)
Definition octet_ok (o : string) : bool :=
  match o with
  | EmptyString => false
  | String c rest =>
      Text.all_chars is_digit o
      && (String.length o <=? 3)%nat
      && (negb (Ascii.eqb c "0") || String.eqb rest "")
      && match digits 0 false o with
         | Some n => n <=? 255
         | None => false
         end
  end.

Definition ipv4_ok (s : string) : bool :=
  match split "." s with
  | [a; b; c; d] => octet_ok a && octet_ok b && octet_ok c && octet_ok d
  | _ => false
  end.

(** One group of an IPv6 address: 1 to 4 hex digits. *)
Definition hextet_ok (h : string) : bool :=
  negb (String.eqb h "") && Text.all_chars is_hex h && (String.length h <=? 4)%nat.

Definition is_empty (s : string) : bool := String.eqb s "".

(** The positions strictly inside [parts] that hold an empty string. *)
Definition inner_empties (parts : list string) : list nat :=
  List.filter (fun i => is_empty (nth i parts "x"))
         (seq 1 (length parts - 2)).

(** [IPv6Address._ip_int_from_string], as a validity test. *)
Definition ipv6_groups_ok (addr : string) : bool :=
  if is_empty addr then false else
  let parts := split ":" addr in
  if (length parts <? 3)%nat then false else
  let last_part := List.last parts "" in
  let v4_ok := if contains "." last_part then ipv4_ok last_part else true in
  (* a dotted-quad suffix stands for two groups *)
  let parts := if contains "." last_part
               then app (removelast parts) ["0"; "0"] else parts in
  if negb v4_ok then false else
  if (9 <? length parts)%nat then false else
  match inner_empties parts with
  | [] =>
      (length parts =? 8)%nat && forallb hextet_ok parts
  | [skip] =>
      let first_empty := is_empty (nth 0 parts "x") in
      let last_empty := is_empty (List.last parts "x") in
      let parts_hi := if first_empty then (skip - 1)%nat else skip in
      let parts_lo := if last_empty then (length parts - skip - 2)%nat
                      else (length parts - skip - 1)%nat in
      (negb first_empty || (parts_hi =? 0)%nat)
      && (negb last_empty || (parts_lo =? 0)%nat)
      && (parts_hi + parts_lo <=? 7)%nat
      && forallb hextet_ok (take parts_hi parts)
      && forallb hextet_ok (drop (length parts - parts_lo) parts)
  | _ => false
  end.

(** [IPv6Address(s)]: no slash, an optional non-empty scope after [%]. *)
Definition ipv6_ok (s : string) : bool :=
  negb (contains "/" s)
  && match split "%" s with
     | [addr] => ipv6_groups_ok addr
     | [addr; scope] => negb (is_empty scope) && ipv6_groups_ok addr
     | _ => false
     end.

(** [ipaddress.ip_address(s)] does not raise. *)
Definition ip_address (s : string) : bool := ipv4_ok s || ipv6_ok s.

End PyLib.

(** ** Observations on a log *)

(** The reservation requests of a log: the POSTs with a [UserBody]. *)
Definition upserts (l : list event) : list payload :=
  omap (fun ev => match ev with
                  | Http {| body := UserBody p |} => Some p
                  | _ => None
                  end) l.

(** The HTTP requests of a log. *)
Definition requests (l : list event) : list request :=
  omap (fun ev => match ev with Http r => Some r | _ => None end) l.

(** The summaries printed in a log. *)
Definition summaries (l : list event) : list (nat * nat) :=
  omap (fun ev => match ev with
                  | Print (MsgSummary s e) => Some (s, e)
                  | _ => None
                  end) l.

(** The rows [csv.DictReader] makes of a list of records: the non-empty
    ones. *)
Definition is_row (r : option (list string)) : bool :=
  match r with
  | Some (_ :: _) => true
  | _ => false
  end.

(** The data rows of the CSV: the rows after the header. *)
Definition data_rows (records : list (option (list string))) : nat :=
  length (List.filter is_row (tail records)).

(** The state after more events were logged. *)
Definition logged (st : state) (evs : list event) : state :=
  {| log := log st ++ evs; session_csrf := session_csrf st |}.

(** Run from [st], the computation only appends to the log, and every
    event it appends satisfies [P]. *)
Definition emits_at {A} (P : event -> Prop) (m : M A) (st : state) : Prop :=
  exists evs, log (m st).2 = log st ++ evs /\ Forall P evs.

Definition emits {A} (P : event -> Prop) (m : M A) : Prop :=
  forall st, emits_at P m st.

(** A printed summary counts the data rows of the CSV. *)
Definition summary_ok (csv : csv_source) (ev : event) : Prop :=
  forall s e, ev = Print (MsgSummary s e) ->
    exists records, csv = Records records /\ (s + e)%nat = data_rows records.

Definition is_upsert (ev : event) : bool :=
  match ev with
  | Http {| body := UserBody _ |} => true
  | _ => false
  end.

Definition is_summary (ev : event) : bool :=
  match ev with
  | Print (MsgSummary _ _) => true
  | _ => false
  end.

(** The events of a block either hold no summary, or end with the one
    summary they hold, and then the block ended normally. *)
Definition summary_last (evs : list event) (r : result unit) : Prop :=
  Forall (fun ev => is_summary ev = false) evs
  \/ (r = Done tt
      /\ exists pre s e, evs = pre ++ [Print (MsgSummary s e)]
                       /\ Forall (fun ev => is_summary ev = false) pre).

(** The request of the [finally] clause, in a session with header [csrf]. *)
Definition logout_request (cfg : secrets) (csrf : option string) : request :=
  {| method := POST; url := base cfg +:+ "/api/auth/logout";
     csrf_header := csrf; body := NoBody |}.

(** What the [finally] clause adds to the log from [st]: the request, and
    the confirmation when the request was answered. *)
Definition logout_events (cfg : secrets) (server : controller) (st : state)
  : list event :=
  Http (logout_request cfg (session_csrf st))
  :: match server (log st) (logout_request cfg (session_csrf st)) with
     | Some _ => [Print MsgLoggedOut]
     | None => []
     end.

(** The three character maps of [normalize_mac], fused. *)
Definition mac_map (c : ascii) : ascii :=
  Text.upper_char
    (if Ascii.eqb (if Ascii.eqb c "-" then ":"%char else c) "." then ":"%char
     else (if Ascii.eqb c "-" then ":"%char else c)).

(** ** The build rule of the VLAN map, object by object *)

Section Rule.

Variable int_of_str : string -> option Z.

(** [int(v)] when it does not raise. *)
Definition coerce (v : json) : option Z :=
  match v with
  | JInt n => Some n
  | JBool b => Some (if b then 1 else 0)
  | JStr s => int_of_str s
  | JNull | JArr _ | JObj _ => None
  end.

(** The VLAN number the rule gives a network object: 1 for a corporate
    network with no [vlan] field or with [vlan == 1]; otherwise the [vlan]
    field coerced to an integer; nothing for an object with neither. *)
Definition rule_key (net : network) : option Z :=
  if eq_str (default JNull (net !! "purpose")) "corporate"
     && match net !! "vlan" with None => true | Some v => eq_one v end
  then Some 1
  else net !! "vlan" ≫= coerce.

(** [net] is the last object of [nets] to which the rule gives [k]. *)
Definition last_with_key (nets : list network) (k : Z) (net : network) : Prop :=
  exists before after,
    nets = before ++ net :: after
    /\ rule_key net = Some k
    /\ Forall (fun n => rule_key n <> Some k) after.

(** An object the loop body can take: a [vlan] field that is looked at can
    be coerced, and an object that is mapped has an [_id]. *)
Definition buildable (net : network) : Prop :=
  (is_Some (net !! "vlan") -> is_Some (rule_key net))
  /\ (is_Some (rule_key net) -> is_Some (net !! "_id")).

End Rule.

(** ** Further observations, for the properties beyond the claims *)

(** The first request of a run, in a session with header [csrf]. *)
Definition login_request (cfg : secrets) (csrf : option string) : request :=
  {| method := POST; url := login cfg; csrf_header := csrf;
     body := LoginBody (USER cfg) (PASS cfg) |}.

(** The request for the CSRF token. *)
Definition self_request (cfg : secrets) (csrf : option string) : request :=
  {| method := GET; url := prefix cfg +:+ "/self"; csrf_header := csrf;
     body := NoBody |}.

(** What the loop body guarantees of a payload it sends. *)
Definition payload_ok (ip_address : string -> bool) (vlan_map : gmap Z json)
    (p : payload) : Prop :=
  use_fixedip p = true
  /\ vlan_enabled p = true
  /\ note p = "Added by unifi.py script"
  /\ vlan_map !! vlan p = Some (network_id p)
  /\ truthy (network_id p) = true
  /\ ip_address (fixed_ip p) = true
  /\ Text.strip (fixed_ip p) = fixed_ip p
  /\ normalize_mac (mac p) = mac p
  /\ Text.strip (name p) = name p.

(** An event of the row loop, in a session with header [csrf]: a printed
    line, or a POST of a good payload to [api] with that header. *)
Definition row_event_ok (ip_address : string -> bool) (vlan_map : gmap Z json)
    (api : string) (csrf : option string) (ev : event) : Prop :=
  match ev with
  | Print _ => True
  | Http r =>
      method r = POST /\ url r = api /\ csrf_header r = csrf
      /\ exists p, body r = UserBody p /\ payload_ok ip_address vlan_map p
  end.

(** A reservation request of a whole run: a POST to the user endpoint that
    carries a non-empty CSRF token. *)
Definition upsert_authenticated (cfg : secrets) (ev : event) : Prop :=
  forall r p, ev = Http r -> body r = UserBody p ->
    method r = POST /\ url r = api cfg
    /\ exists token, csrf_header r = Some token /\ token <> "".

(** A computation that leaves the session's CSRF header as it found it. *)
Definition keeps_session {A} (m : M A) : Prop :=
  forall st, session_csrf (m st).2 = session_csrf st.

(** The per-row lines: successes, and the three kinds of errors. *)
Definition is_ok_line (ev : event) : bool :=
  match ev with
  | Print (MsgOk _ _ _) => true
  | _ => false
  end.

Definition is_error_line (ev : event) : bool :=
  match ev with
  | Print (MsgUnknownVlan _ _) | Print (MsgInvalidIP _ _) | Print (MsgFailed _ _) => true
  | _ => false
  end.

Definition is_failed_line (ev : event) : bool :=
  match ev with
  | Print (MsgFailed _ _) => true
  | _ => false
  end.

Definition count_events (p : event -> bool) (evs : list event) : nat :=
  length (List.filter p evs).

(** A character [normalize_mac] never leaves in its result: a hyphen, a
    dot, or a lower-case ASCII letter. *)
Definition mac_removed (c : ascii) : bool :=
  let n := nat_of_ascii c in
  (n =? 45)%nat || (n =? 46)%nat || ((97 <=? n)%nat && (n <=? 122)%nat).

(** ** A small world for the examples

    The scenario of the specification: VLAN 10 is known, VLAN 99 is not;
    row A is valid, row B names VLAN 99, row C has a bad IP. *)

Module Demo.

Definition cfg : secrets :=
  {| UDM := "192.168.1.1"; USER := "admin"; PASS := "your_password";
     SITE := "default" |}.

Definition lan : network :=
  list_to_map [("_id", JStr "net-lan"); ("purpose", JStr "corporate");
               ("ip_subnet", JStr "192.168.1.1/24")].

Definition net10 : network :=
  list_to_map [("_id", JStr "net-10"); ("purpose", JStr "corporate");
               ("vlan", JInt 10); ("ip_subnet", JStr "10.0.10.1/24")].

Definition old10 : network :=
  list_to_map [("_id", JStr "net-10-old"); ("vlan", JStr "10")].

Definition net20 : network :=
  list_to_map [("_id", JStr ""); ("vlan", JInt 20)].

Definition wan : network :=
  list_to_map [("_id", JStr "net-wan"); ("purpose", JStr "wan")].

Definition networks : list network := [old10; lan; net10; net20; wan].

(** The VLAN map the script builds from [networks]. *)
Definition vlans : gmap Z json :=
  <[20 := JStr ""]> (<[10 := JStr "net-10"]> (<[1 := JStr "net-lan"]> ∅)).

Definition subnets : gmap Z json :=
  <[20 := JStr ""]> (<[10 := JStr "10.0.10.1/24"]>
    (<[1 := JStr "192.168.1.1/24"]> ∅)).

Definition answer : response :=
  {| ok := true; x_csrf_token := Some "token"; text := "";
     json_data := inr networks |}.

(** A controller that accepts everything. *)
Definition server : controller := fun _ _ => Some answer.

(** A controller that cannot be reached. *)
Definition offline : controller := fun _ _ => None.

Definition header : list string := ["VLAN"; "MAC"; "Client Name"; "IP"].
Definition row_a : list string := ["10"; "00-11-22-33-44-55"; "printer"; "10.0.10.5"].
Definition row_b : list string := ["99"; "00-11-22-33-44-66"; "camera"; "10.0.99.5"].
Definition row_c : list string := ["10"; "00-11-22-33-44-77"; "phone"; "bad-ip"].
Definition row_d : list string := ["20"; "00-11-22-33-44-88"; "tv"; "10.0.20.5"].
Definition row_e : list string := ["10"; "00.11.22.33.44.99"; " laptop "; "  10.0.10.6 "].

Definition devices : csv_source :=
  Records [Some header; Some row_a; Some row_b; Some row_c].

(** The same rows under a header without the [IP] column. *)
Definition no_ip_column : csv_source :=
  Records [Some ["VLAN"; "MAC"; "Client Name"]; Some row_a; Some row_b].

Definition run (server : controller) (csv : csv_source) : Z * list event :=
  script PyLib.int_of_str PyLib.ip_address (Some cfg) server csv.

End Demo.

(** ** More worlds for the examples *)

Module Cases.

Definition refusal : response :=
  {| ok := false; x_csrf_token := None; text := "api.err.Invalid";
     json_data := inl ValueError |}.

(** A controller that answers every request with an error status. *)
Definition denying : controller := fun _ _ => Some refusal.

(** A controller that accepts everything but hands out no CSRF token. *)
Definition tokenless : controller :=
  fun _ _ => Some {| ok := true; x_csrf_token := None; text := "";
                     json_data := inr Demo.networks |}.

(** A controller that sets the session up and refuses every reservation. *)
Definition rejecting : controller :=
  fun _ rq =>
    match body rq with
    | UserBody _ => Some refusal
    | _ => Some Demo.answer
    end.

(** Row A of the scenario under a header with another column order and an
    extra column. *)
Definition wide_header : list string := ["Notes"; "IP"; "Client Name"; "MAC"; "VLAN"].
Definition wide_row : list string :=
  ["front desk"; "10.0.10.5"; "printer"; "00-11-22-33-44-55"; "10"].

(** A row whose VLAN is not a number. *)
Definition row_f : list string := ["ten"; "00-11-22-33-44-aa"; "scanner"; "10.0.10.7"].

Definition bad_vlan_csv : csv_source :=
  Records [Some Demo.header; Some Demo.row_a; Some row_f; Some Demo.row_b].

(** The session once [connect] is through with [Demo.server]. *)
Definition connected : state :=
  (connect PyLib.int_of_str Demo.cfg Demo.server initial).2.

End Cases.

(** * Properties *)

(** ** Text functions *)

Module TextFacts.
Import Text.

Ltac by_cases_on_char c :=
  destruct c as [[] [] [] [] [] [] [] []]; vm_compute; congruence.

Lemma lstrip_spaces ws s :
  all_chars is_space ws = true -> lstrip (ws +:+ s) = lstrip s.
Proof.
  induction ws as [|c ws IH]; simpl; [reflexivity|].
  intros [Hc Hws]%andb_true_iff. rewrite Hc. auto.
Qed.

Lemma rstrip_only_spaces ws :
  all_chars is_space ws = true -> rstrip ws = EmptyString.
Proof.
  induction ws as [|c ws IH]; simpl; [reflexivity|].
  intros [Hc Hws]%andb_true_iff. rewrite (IH Hws), Hc. reflexivity.
Qed.

Lemma rstrip_spaces s ws :
  all_chars is_space ws = true -> rstrip (s +:+ ws) = rstrip s.
Proof.
  intros Hws. induction s as [|c s IH]; simpl.
  - now apply rstrip_only_spaces.
  - now rewrite IH.
Qed.

Lemma strip_lstrip_spaces s ws :
  all_chars is_space ws = true -> rstrip (lstrip (s +:+ ws)) = rstrip (lstrip s).
Proof.
  intros Hws. induction s as [|c s IH]; simpl.
  - rewrite rstrip_only_spaces; [reflexivity|].
    clear -Hws. induction ws as [|c ws IH]; simpl in *; [reflexivity|].
    apply andb_true_iff in Hws as [Hc Hws]. rewrite Hc. auto.
  - destruct (is_space c); [exact IH|].
    change (String c s +:+ ws) with (String c (s +:+ ws)).
    simpl. now rewrite (rstrip_spaces s ws Hws).
Qed.

(** Whitespace around a text does not survive [strip]. *)
Lemma strip_padded ws s ws' :
  all_chars is_space ws = true -> all_chars is_space ws' = true ->
  strip (ws +:+ s +:+ ws') = strip s.
Proof.
  intros Hws Hws'. unfold strip.
  rewrite lstrip_spaces by assumption. now apply strip_lstrip_spaces.
Qed.

Lemma lstrip_no_space s :
  all_chars (fun c => negb (is_space c)) s = true -> lstrip s = s.
Proof.
  destruct s as [|c s]; simpl; [reflexivity|].
  intros [Hc _]%andb_true_iff. now destruct (is_space c).
Qed.

Lemma rstrip_no_space s :
  all_chars (fun c => negb (is_space c)) s = true -> rstrip s = s.
Proof.
  induction s as [|c s IH]; simpl; [reflexivity|].
  intros [Hc Hs]%andb_true_iff. rewrite (IH Hs).
  destruct s; [now destruct (is_space c) | reflexivity].
Qed.

Lemma strip_no_space s :
  all_chars (fun c => negb (is_space c)) s = true -> strip s = s.
Proof.
  intros H. unfold strip. rewrite (lstrip_no_space s H). now apply rstrip_no_space.
Qed.

Lemma all_chars_impl (p q : ascii -> bool) s :
  (forall c, p c = true -> q c = true) ->
  all_chars p s = true -> all_chars q s = true.
Proof.
  intros Hpq. induction s as [|c s IH]; simpl; [reflexivity|].
  intros [Hc Hs]%andb_true_iff. rewrite (Hpq c Hc). auto.
Qed.

Lemma map_chars_id (f : ascii -> ascii) s :
  all_chars (fun c => Ascii.eqb (f c) c) s = true -> map_chars f s = s.
Proof.
  induction s as [|c s IH]; simpl; [reflexivity|].
  intros [Hc Hs]%andb_true_iff. apply Ascii.eqb_eq in Hc. now rewrite Hc, IH.
Qed.

Lemma map_chars_compose (f g : ascii -> ascii) s :
  map_chars f (map_chars g s) = map_chars (fun c => f (g c)) s.
Proof. induction s as [|c s IH]; simpl; [reflexivity | now rewrite IH]. Qed.

Lemma map_chars_ext (f g : ascii -> ascii) s :
  (forall c, f c = g c) -> map_chars f s = map_chars g s.
Proof. intros H. induction s as [|c s IH]; simpl; [reflexivity | now rewrite H, IH]. Qed.

Section SpacePreserving.
Variable f : ascii -> ascii.
Hypothesis f_space : forall c, is_space (f c) = is_space c.

Lemma lstrip_map s : lstrip (map_chars f s) = map_chars f (lstrip s).
Proof.
  induction s as [|c s IH]; simpl; [reflexivity|].
  rewrite f_space. now destruct (is_space c).
Qed.

Lemma rstrip_map s : rstrip (map_chars f s) = map_chars f (rstrip s).
Proof.
  induction s as [|c s IH]; simpl; [reflexivity|].
  rewrite IH, f_space.
  destruct (rstrip s); simpl; [now destruct (is_space c) | reflexivity].
Qed.

Lemma strip_map s : strip (map_chars f s) = map_chars f (strip s).
Proof. unfold strip. now rewrite lstrip_map, rstrip_map. Qed.
End SpacePreserving.

Lemma rstrip_head c s :
  is_space c = false -> exists t, rstrip (String c s) = String c t.
Proof.
  intros Hc. simpl. destruct (rstrip s); rewrite ?Hc; eauto.
Qed.

Lemma lstrip_head s :
  lstrip s = EmptyString \/ exists c t, lstrip s = String c t /\ is_space c = false.
Proof.
  induction s as [|c s IH]; simpl; [now left|].
  destruct (is_space c) eqn:Hc; [exact IH | right; eauto].
Qed.

Lemma rstrip_idem s : rstrip (rstrip s) = rstrip s.
Proof.
  induction s as [|c s IH]; simpl; [reflexivity|].
  destruct (rstrip s) as [|d t] eqn:Hr.
  - destruct (is_space c) eqn:Hc; simpl; [reflexivity | now rewrite Hc].
  - remember (String d t) as u. simpl. rewrite IH. subst u. reflexivity.
Qed.

Lemma strip_idem s : strip (strip s) = strip s.
Proof.
  unfold strip. destruct (lstrip_head s) as [-> | (c & t & -> & Hc)].
  - reflexivity.
  - destruct (rstrip_head c t Hc) as [u Hu]. rewrite Hu.
    assert (lstrip (String c u) = String c u) as -> by (simpl; now rewrite Hc).
    rewrite <- Hu. apply rstrip_idem.
Qed.

End TextFacts.

(** ** MAC normalisation *)

Lemma normalize_mac_fused s :
  normalize_mac s = Text.map_chars mac_map (Text.strip s).
Proof.
  unfold normalize_mac, Text.upper, Text.replace.
  now rewrite !TextFacts.map_chars_compose.
Qed.

Lemma mac_map_space c : Text.is_space (mac_map c) = Text.is_space c.
Proof. TextFacts.by_cases_on_char c. Qed.

Lemma mac_map_idem c : mac_map (mac_map c) = mac_map c.
Proof. TextFacts.by_cases_on_char c. Qed.

Lemma mac_char_fixed c : mac_char c = true -> Ascii.eqb (mac_map c) c = true.
Proof. TextFacts.by_cases_on_char c. Qed.

Lemma mac_char_no_space c : mac_char c = true -> negb (Text.is_space c) = true.
Proof. TextFacts.by_cases_on_char c. Qed.

(** C5. MAC normalisation leaves a colon-separated upper-case MAC as it is,
    applying it twice is the same as applying it once, and the three
    spellings [aa-bb-cc-dd-ee-ff], [aa.bb.cc.dd.ee.ff] and
    [AA:BB:CC:DD:EE:FF] all normalise to [AA:BB:CC:DD:EE:FF]. *)
Theorem normalize_mac_idempotent :
  (forall s, colon_upper s = true -> normalize_mac s = s)
  /\ (forall s, normalize_mac (normalize_mac s) = normalize_mac s)
  /\ normalize_mac "aa-bb-cc-dd-ee-ff" = "AA:BB:CC:DD:EE:FF"
  /\ normalize_mac "aa.bb.cc.dd.ee.ff" = "AA:BB:CC:DD:EE:FF"
  /\ normalize_mac "AA:BB:CC:DD:EE:FF" = "AA:BB:CC:DD:EE:FF".
Proof.
  split; [|split; [|repeat split; vm_compute; reflexivity]].
  - intros s Hs. rewrite normalize_mac_fused.
    rewrite TextFacts.strip_no_space
      by (eapply TextFacts.all_chars_impl; [apply mac_char_no_space | exact Hs]).
    apply TextFacts.map_chars_id.
    eapply TextFacts.all_chars_impl; [apply mac_char_fixed | exact Hs].
  - intros s. rewrite !normalize_mac_fused.
    rewrite (TextFacts.strip_map mac_map mac_map_space).
    rewrite TextFacts.strip_idem, TextFacts.map_chars_compose.
    apply TextFacts.map_chars_ext, mac_map_idem.
Qed.

Lemma normalize_mac_idempotent_witness :
  colon_upper "00:1A:2B:3C:4D:5E" = true
  /\ normalize_mac "00:1A:2B:3C:4D:5E" = "00:1A:2B:3C:4D:5E".
Proof.
  split; [reflexivity|].
  apply (proj1 normalize_mac_idempotent). reflexivity.
Defined.

(** ** The dictionary of a row *)

Lemma fold_insert_some_keeps (kvs : list (string * string)) (d : gmap string (option string)) k :
  is_Some (d !! k) ->
  is_Some (fold_left (fun d kv => <[kv.1 := Some kv.2]> d) kvs d !! k).
Proof.
  revert d. induction kvs as [|[k' v'] kvs IH]; intros d Hd; simpl; [exact Hd|].
  apply IH. destruct (decide (k' = k)) as [->|Hne].
  - rewrite lookup_insert_eq. eauto.
  - now rewrite lookup_insert_ne.
Qed.

Lemma fold_insert_some_adds (kvs : list (string * string)) (d : gmap string (option string)) k :
  k ∈ kvs.*1 ->
  is_Some (fold_left (fun d kv => <[kv.1 := Some kv.2]> d) kvs d !! k).
Proof.
  revert d. induction kvs as [|[k' v'] kvs IH]; intros d Hk; simpl in *.
  - now apply elem_of_nil in Hk.
  - destruct (decide (k = k')) as [->|Hne].
    + apply fold_insert_some_keeps. rewrite lookup_insert_eq. eauto.
    + apply IH. apply elem_of_cons in Hk as [?|?]; [contradiction | assumption].
Qed.

Lemma fold_insert_none_keeps (ks : list string) (d : gmap string (option string)) k :
  is_Some (d !! k) ->
  is_Some (fold_left (fun d key => <[key := None]> d) ks d !! k).
Proof.
  revert d. induction ks as [|k' ks IH]; intros d Hd; simpl; [exact Hd|].
  apply IH. destruct (decide (k' = k)) as [->|Hne].
  - rewrite lookup_insert_eq. eauto.
  - now rewrite lookup_insert_ne.
Qed.

Lemma fold_insert_none_adds (ks : list string) (d : gmap string (option string)) k :
  k ∈ ks ->
  is_Some (fold_left (fun d key => <[key := None]> d) ks d !! k).
Proof.
  revert d. induction ks as [|k' ks IH]; intros d Hk; simpl in *.
  - now apply elem_of_nil in Hk.
  - destruct (decide (k = k')) as [->|Hne].
    + apply fold_insert_none_keeps. rewrite lookup_insert_eq. eauto.
    + apply IH. apply elem_of_cons in Hk as [?|?]; [contradiction | assumption].
Qed.

Lemma fst_zip_take {A B} (l : list A) (k : list B) :
  (zip l k).*1 = take (length k) l.
Proof.
  revert k. induction l as [|x l IH]; intros [|y k]; simpl; try reflexivity.
  now rewrite IH.
Qed.

(** Every name of the header is a key of every row. *)
Lemma row_dict_has_key (fieldnames record : list string) (k : string) :
  k ∈ fieldnames -> is_Some (row_dict fieldnames record !! k).
Proof.
  intros Hk. unfold row_dict.
  rewrite <- (take_drop (length record) fieldnames) in Hk.
  apply elem_of_app in Hk as [Hk|Hk].
  - apply fold_insert_none_keeps, fold_insert_some_adds.
    now rewrite fst_zip_take.
  - now apply fold_insert_none_adds.
Qed.

(** The header check of line 94, when it passes. *)
Lemma required_in_header (names : list string) (field : string) :
  forallb (fun field => bool_decide (field ∈ names)) required_fields = true ->
  field ∈ required_fields -> field ∈ names.
Proof.
  intros Hall Hf. rewrite forallb_forall in Hall.
  apply list_elem_of_In in Hf. apply Hall in Hf. now apply bool_decide_eq_true in Hf.
Qed.

(** ** The log *)

Lemma upserts_app l1 l2 : upserts (l1 ++ l2) = upserts l1 ++ upserts l2.
Proof. unfold upserts. apply omap_app. Qed.

Lemma summaries_app l1 l2 : summaries (l1 ++ l2) = summaries l1 ++ summaries l2.
Proof. unfold summaries. apply omap_app. Qed.

Lemma upserts_print l m : upserts (l ++ [Print m]) = upserts l.
Proof. rewrite upserts_app. simpl. apply app_nil_r. Qed.

Lemma requests_app l1 l2 : requests (l1 ++ l2) = requests l1 ++ requests l2.
Proof. unfold requests. apply omap_app. Qed.

Lemma requests_print l m : requests (l ++ [Print m]) = requests l.
Proof. unfold requests. rewrite omap_app. simpl. apply app_nil_r. Qed.

(** Unfold one step of the monad. *)
Ltac unfold_M :=
  unfold getitem, strip_field, debug, DEBUG in *;
  unfold mbind, M_mbind, M_bind, mret, M_mret, M_ret, raise, return_, print in *.

(** ** One row *)

Section RowFacts.

Variable int_of_str : string -> option Z.
Variable ip_address : string -> bool.
Variable server : controller.
Variable vlan_map : gmap Z json.
Variable api : string.

Local Abbreviation process_row := (process_row int_of_str ip_address server vlan_map api).
Local Abbreviation for_rows := (for_rows int_of_str ip_address server vlan_map api).

(** A row whose VLAN resolves to nothing, or to a falsy identifier. *)
Lemma process_row_unresolved row sc ec st s n mac_field :
  row !! "VLAN" = Some (Some s) ->
  int_of_str s = Some n ->
  truthy (vlan_get vlan_map n) = false ->
  row !! "MAC" = Some mac_field ->
  process_row row (sc, ec) st
  = (Done (sc, S ec), logged st [Print (MsgUnknownVlan n mac_field)]).
Proof.
  intros HV Hn Hid HM. unfold process_row, int_field. unfold_M.
  rewrite HV. simpl. rewrite Hn. simpl. rewrite Hid. simpl.
  rewrite HM. reflexivity.
Qed.

(** A row whose VLAN resolves but whose IP is not an address. *)
Lemma process_row_invalid_ip row sc ec st s n m ip :
  row !! "VLAN" = Some (Some s) ->
  int_of_str s = Some n ->
  truthy (vlan_get vlan_map n) = true ->
  row !! "MAC" = Some (Some m) ->
  row !! "IP" = Some (Some ip) ->
  ip_address (Text.strip ip) = false ->
  process_row row (sc, ec) st
  = (Done (sc, S ec),
     logged st [Print (MsgInvalidIP (Text.strip ip) (normalize_mac m))]).
Proof.
  intros HV Hn Hid HM HI Hip. unfold process_row, int_field. unfold_M.
  rewrite HV. simpl. rewrite Hn. simpl. rewrite Hid. simpl.
  rewrite HM. simpl. rewrite HI. simpl. rewrite Hip. reflexivity.
Qed.

(** A row that passes both checks: the request is sent, and the answer
    decides which counter moves. *)
Lemma process_row_valid row sc ec st s n m ip c :
  row !! "VLAN" = Some (Some s) ->
  int_of_str s = Some n ->
  truthy (vlan_get vlan_map n) = true ->
  row !! "MAC" = Some (Some m) ->
  row !! "IP" = Some (Some ip) ->
  ip_address (Text.strip ip) = true ->
  row !! "Client Name" = Some (Some c) ->
  let p := {| mac := normalize_mac m;
              fixed_ip := Text.strip ip;
              name := Text.strip c;
              network_id := vlan_get vlan_map n;
              use_fixedip := true;
              note := "Added by unifi.py script";
              vlan_enabled := true;
              vlan := n |} in
  let st0 := logged st [Print (MsgSetting (Text.strip c) (normalize_mac m) (Text.strip ip) n)] in
  let rq := {| method := POST; url := api; csrf_header := session_csrf st;
               body := UserBody p |} in
  let st1 := logged st0 [Http rq] in
  process_row row (sc, ec) st
  = match server (log st0) rq with
    | None => (Raised RequestException, st1)
    | Some resp =>
        if ok resp
        then (Done (S sc, ec),
              logged st1 [Print (MsgOk (normalize_mac m) (Text.strip ip) n)])
        else (Done (sc, S ec),
              logged st1 [Print (MsgFailed (normalize_mac m) (text resp))])
    end.
Proof.
  intros HV Hn Hid HM HI Hip HC. unfold process_row, int_field, send. unfold_M.
  rewrite HV. simpl. rewrite Hn. simpl. rewrite Hid. simpl.
  rewrite HM. simpl. rewrite HI. simpl. rewrite Hip. simpl.
  rewrite HC. simpl.
  destruct (server _ _) as [resp|]; [|reflexivity].
  destruct (ok resp); reflexivity.
Qed.

Lemma for_rows_step fieldnames x record rest counts st :
  for_rows fieldnames (Some (x :: record) :: rest) counts st
  = match process_row (row_dict fieldnames (x :: record)) counts st with
    | (Done counts', st') => for_rows fieldnames rest counts' st'
    | (Returned, st') => (Returned, st')
    | (Raised e, st') => (Raised e, st')
    end.
Proof. reflexivity. Qed.

(** C3. A row whose VLAN number is not a key of the VLAN map: the row
    logs one warning and no request, [error_count] grows by exactly one,
    [success_count] stays, and the loop goes on with the next row. *)
Theorem unknown_vlan_row_skipped fieldnames record rest sc ec st s n :
  forallb (fun field => bool_decide (field ∈ fieldnames)) required_fields = true ->
  record <> [] ->
  row_dict fieldnames record !! "VLAN" = Some (Some s) ->
  int_of_str s = Some n ->
  vlan_map !! n = None ->
  exists mac_field,
    let st' := logged st [Print (MsgUnknownVlan n mac_field)] in
    process_row (row_dict fieldnames record) (sc, ec) st = (Done (sc, S ec), st')
    /\ upserts (log st') = upserts (log st)
    /\ requests (log st') = requests (log st)
    /\ for_rows fieldnames (Some record :: rest) (sc, ec) st
       = for_rows fieldnames rest (sc, S ec) st'.
Proof.
  intros Hhdr Hne HV Hn Hmap.
  destruct (row_dict_has_key fieldnames record "MAC") as [mac_field HM].
  { apply (required_in_header _ _ Hhdr). unfold required_fields. set_solver. }
  exists mac_field. cbn zeta.
  assert (process_row (row_dict fieldnames record) (sc, ec) st
          = (Done (sc, S ec), logged st [Print (MsgUnknownVlan n mac_field)])) as Hrow.
  { apply process_row_unresolved with (s := s); try assumption.
    unfold vlan_get. now rewrite Hmap. }
  split; [exact Hrow|]. split; [apply upserts_print|].
  split; [apply requests_print|].
  destruct record as [|x record]; [contradiction|].
  rewrite for_rows_step, Hrow. reflexivity.
Qed.

(** C9. A row whose VLAN number is a key of the VLAN map with a falsy
    identifier (the empty string, for one) is treated like an unknown
    VLAN: one warning, no request, [error_count] grows by one, and the
    loop goes on. *)
Theorem falsy_network_id_row_skipped fieldnames record rest sc ec st s n id :
  forallb (fun field => bool_decide (field ∈ fieldnames)) required_fields = true ->
  record <> [] ->
  row_dict fieldnames record !! "VLAN" = Some (Some s) ->
  int_of_str s = Some n ->
  vlan_map !! n = Some id ->
  truthy id = false ->
  exists mac_field,
    let st' := logged st [Print (MsgUnknownVlan n mac_field)] in
    process_row (row_dict fieldnames record) (sc, ec) st = (Done (sc, S ec), st')
    /\ upserts (log st') = upserts (log st)
    /\ requests (log st') = requests (log st)
    /\ for_rows fieldnames (Some record :: rest) (sc, ec) st
       = for_rows fieldnames rest (sc, S ec) st'.
Proof.
  intros Hhdr Hne HV Hn Hmap Hid.
  destruct (row_dict_has_key fieldnames record "MAC") as [mac_field HM].
  { apply (required_in_header _ _ Hhdr). unfold required_fields. set_solver. }
  exists mac_field. cbn zeta.
  assert (process_row (row_dict fieldnames record) (sc, ec) st
          = (Done (sc, S ec), logged st [Print (MsgUnknownVlan n mac_field)])) as Hrow.
  { apply process_row_unresolved with (s := s); try assumption.
    unfold vlan_get. now rewrite Hmap. }
  split; [exact Hrow|]. split; [apply upserts_print|].
  split; [apply requests_print|].
  destruct record as [|x record]; [contradiction|].
  rewrite for_rows_step, Hrow. reflexivity.
Qed.

(** C4. A row (with an integer VLAN and its MAC and IP fields present)
    whose trimmed IP is not an address literal: the row logs one warning
    and no request, [error_count] grows by exactly one, and the loop goes
    on with the next row.  This holds whether or not the VLAN is known. *)
Theorem invalid_ip_row_skipped fieldnames record rest sc ec st s n m ip :
  record <> [] ->
  row_dict fieldnames record !! "VLAN" = Some (Some s) ->
  int_of_str s = Some n ->
  row_dict fieldnames record !! "MAC" = Some (Some m) ->
  row_dict fieldnames record !! "IP" = Some (Some ip) ->
  ip_address (Text.strip ip) = false ->
  exists warning,
    let st' := logged st [Print warning] in
    process_row (row_dict fieldnames record) (sc, ec) st = (Done (sc, S ec), st')
    /\ upserts (log st') = upserts (log st)
    /\ requests (log st') = requests (log st)
    /\ for_rows fieldnames (Some record :: rest) (sc, ec) st
       = for_rows fieldnames rest (sc, S ec) st'.
Proof.
  intros Hne HV Hn HM HI Hip.
  assert (exists warning,
    process_row (row_dict fieldnames record) (sc, ec) st
    = (Done (sc, S ec), logged st [Print warning])) as [warning Hrow].
  { destruct (truthy (vlan_get vlan_map n)) eqn:Hid.
    - eexists. eapply process_row_invalid_ip; eassumption.
    - eexists. eapply process_row_unresolved; eassumption. }
  exists warning. cbn zeta.
  split; [exact Hrow|]. split; [apply upserts_print|].
  split; [apply requests_print|].
  destruct record as [|x record]; [contradiction|].
  rewrite for_rows_step, Hrow. reflexivity.
Qed.

(** C10. The IP field is trimmed before it is validated and before it is
    put in the payload: a row whose IP field is an address literal [a]
    with whitespace around it is accepted, one reservation request is
    sent for it, and its [fixed_ip] is [a]. *)
Theorem ip_trimmed_before_use row sc ec st s n m c ws a ws' :
  row !! "VLAN" = Some (Some s) ->
  int_of_str s = Some n ->
  truthy (vlan_get vlan_map n) = true ->
  row !! "MAC" = Some (Some m) ->
  row !! "Client Name" = Some (Some c) ->
  row !! "IP" = Some (Some (ws +:+ a +:+ ws')) ->
  Text.all_chars Text.is_space ws = true ->
  Text.all_chars Text.is_space ws' = true ->
  Text.strip a = a ->
  ip_address a = true ->
  let p := {| mac := normalize_mac m;
              fixed_ip := a;
              name := Text.strip c;
              network_id := vlan_get vlan_map n;
              use_fixedip := true;
              note := "Added by unifi.py script";
              vlan_enabled := true;
              vlan := n |} in
  let out := process_row row (sc, ec) st in
  upserts (log out.2) = upserts (log st) ++ [p]
  /\ (out.1 = Done (S sc, ec) \/ out.1 = Done (sc, S ec)
      \/ out.1 = Raised RequestException)
  /\ Forall (fun ev => forall ip' mac', ev <> Print (MsgInvalidIP ip' mac'))
            (drop (length (log st)) (log out.2)).
Proof.
  intros HV Hn Hid HM HC HI Hws Hws' Ha Hip p out.
  assert (Text.strip (ws +:+ a +:+ ws') = a) as Hstrip
    by (rewrite TextFacts.strip_padded by assumption; exact Ha).
  pose proof (process_row_valid row sc ec st s n m _ c HV Hn Hid HM HI) as Hrun.
  rewrite Hstrip in Hrun. specialize (Hrun Hip HC). cbn zeta in Hrun.
  subst out. rewrite Hrun. fold p.
  destruct (server _ _) as [resp|]; [destruct (ok resp)|]; cbn [fst snd logged log];
    rewrite <- ?app_assoc, drop_app_length, !upserts_app; simpl;
    (split; [reflexivity|]); (split; [tauto|]);
    repeat constructor; discriminate.
Qed.

End RowFacts.

Lemma unknown_vlan_row_skipped_witness :
  exists mac_field,
    process_row PyLib.int_of_str PyLib.ip_address Demo.server Demo.vlans "/rest/user"
      (row_dict Demo.header Demo.row_b) (0%nat, 0%nat) initial
    = (Done (0%nat, 1%nat), logged initial [Print (MsgUnknownVlan 99 mac_field)]).
Proof.
  destruct (unknown_vlan_row_skipped PyLib.int_of_str PyLib.ip_address Demo.server
              Demo.vlans "/rest/user" Demo.header Demo.row_b [] 0%nat 0%nat initial "99" 99)
    as [mac_field H].
  - vm_compute. reflexivity.
  - discriminate.
  - vm_compute. reflexivity.
  - vm_compute. reflexivity.
  - vm_compute. reflexivity.
  - exists mac_field. apply H.
Defined.

Lemma falsy_network_id_row_skipped_witness :
  exists mac_field,
    process_row PyLib.int_of_str PyLib.ip_address Demo.server Demo.vlans "/rest/user"
      (row_dict Demo.header Demo.row_d) (0%nat, 0%nat) initial
    = (Done (0%nat, 1%nat), logged initial [Print (MsgUnknownVlan 20 mac_field)]).
Proof.
  destruct (falsy_network_id_row_skipped PyLib.int_of_str PyLib.ip_address Demo.server
              Demo.vlans "/rest/user" Demo.header Demo.row_d [] 0%nat 0%nat initial "20" 20
              (JStr ""))
    as [mac_field H].
  - vm_compute. reflexivity.
  - discriminate.
  - vm_compute. reflexivity.
  - vm_compute. reflexivity.
  - vm_compute. reflexivity.
  - reflexivity.
  - exists mac_field. apply H.
Defined.

Lemma invalid_ip_row_skipped_witness :
  exists warning,
    process_row PyLib.int_of_str PyLib.ip_address Demo.server Demo.vlans "/rest/user"
      (row_dict Demo.header Demo.row_c) (1%nat, 1%nat) initial
    = (Done (1%nat, 2%nat), logged initial [Print warning]).
Proof.
  destruct (invalid_ip_row_skipped PyLib.int_of_str PyLib.ip_address Demo.server
              Demo.vlans "/rest/user" Demo.header Demo.row_c [] 1%nat 1%nat initial "10" 10
              "00-11-22-33-44-77" "bad-ip")
    as [warning H].
  - discriminate.
  - vm_compute. reflexivity.
  - vm_compute. reflexivity.
  - vm_compute. reflexivity.
  - vm_compute. reflexivity.
  - vm_compute. reflexivity.
  - exists warning. apply H.
Defined.

Lemma ip_trimmed_before_use_witness :
  upserts (log (process_row PyLib.int_of_str PyLib.ip_address Demo.server Demo.vlans
                  "/rest/user" (row_dict Demo.header Demo.row_e) (0%nat, 0%nat) initial).2)
  = [ {| mac := "00:11:22:33:44:99";
         fixed_ip := "10.0.10.6";
         name := "laptop";
         network_id := JStr "net-10";
         use_fixedip := true;
         note := "Added by unifi.py script";
         vlan_enabled := true;
         vlan := 10 |} ].
Proof.
  apply (ip_trimmed_before_use PyLib.int_of_str PyLib.ip_address Demo.server
           Demo.vlans "/rest/user" (row_dict Demo.header Demo.row_e) 0%nat 0%nat initial
           "10" 10 "00.11.22.33.44.99" " laptop " "  " "10.0.10.6" " ").
  - vm_compute. reflexivity.
  - vm_compute. reflexivity.
  - vm_compute. reflexivity.
  - vm_compute. reflexivity.
  - vm_compute. reflexivity.
  - vm_compute. reflexivity.
  - vm_compute. reflexivity.
  - vm_compute. reflexivity.
  - vm_compute. reflexivity.
  - vm_compute. reflexivity.
Defined.

(** ** What a computation adds to the log *)

Section Emits.

Context {A B : Type} (P : event -> Prop).

Lemma emits_at_nothing (m : M A) st : log (m st).2 = log st -> emits_at P m st.
Proof. intros H. exists []. rewrite H, app_nil_r. split; [reflexivity | constructor]. Qed.

Lemma emits_at_ret (a : A) st : emits_at P (mret a : M A) st.
Proof. now apply emits_at_nothing. Qed.

Lemma emits_at_raise e st : emits_at P (raise e : M A) st.
Proof. now apply emits_at_nothing. Qed.

Lemma emits_at_return st : emits_at P (return_ : M A) st.
Proof. now apply emits_at_nothing. Qed.

Lemma emits_at_bind (m : M A) (f : A -> M B) st :
  emits_at P m st ->
  (forall a st', m st = (Done a, st') -> emits_at P (f a) st') ->
  emits_at P (m ≫= f) st.
Proof.
  intros (evs & Hlog & Hevs) Hf. unfold emits_at, mbind, M_mbind, M_bind.
  destruct (m st) as [[a| |e] st'] eqn:Hm; simpl in *; eauto.
  destruct (Hf a st' eq_refl) as (evs' & Hlog' & Hevs').
  exists (evs ++ evs'). rewrite Hlog', Hlog, app_assoc.
  split; [reflexivity | now apply Forall_app].
Qed.

Lemma emits_at_try_except (body : M A) handler st :
  emits_at P body st ->
  (forall e h st', body st = (Raised e, st') -> handler e = Some h -> emits_at P h st') ->
  emits_at P (try_except body handler) st.
Proof.
  intros (evs & Hlog & Hevs) Hh. unfold emits_at, try_except.
  destruct (body st) as [[a| |e] st'] eqn:Hb; simpl in *; eauto.
  destruct (handler e) as [h|] eqn:He; simpl; eauto.
  destruct (Hh e h st' eq_refl He) as (evs' & Hlog' & Hevs').
  exists (evs ++ evs'). rewrite Hlog', Hlog, app_assoc.
  split; [reflexivity | now apply Forall_app].
Qed.

Lemma emits_at_try_finally (body : M A) (cleanup : M unit) st :
  emits_at P body st ->
  (forall st', emits_at P cleanup st') ->
  emits_at P (try_finally body cleanup) st.
Proof.
  intros (evs & Hlog & Hevs) Hc. unfold emits_at, try_finally.
  destruct (body st) as [r st1] eqn:Hb; simpl in *.
  destruct (Hc st1) as (evs' & Hlog' & Hevs').
  exists (evs ++ evs'). rewrite app_assoc, <- Hlog, <- Hlog'.
  split; [|now apply Forall_app].
  destruct (cleanup st1) as [[[]| |e] st2]; reflexivity.
Qed.

End Emits.

Lemma emits_at_print P m st : P (Print m) -> emits_at P (print m) st.
Proof. intros H. exists [Print m]. split; [reflexivity | now repeat constructor]. Qed.

Lemma emits_at_debug P m st : P (Print m) -> emits_at P (debug m) st.
Proof. apply emits_at_print. Qed.

Lemma emits_at_send P server m u b st :
  (forall csrf, P (Http {| method := m; url := u; csrf_header := csrf; body := b |})) ->
  emits_at P (send server m u b) st.
Proof.
  intros H. eexists [Http _]. unfold send.
  destruct (server _ _); (split; [reflexivity | repeat constructor; apply H]).
Qed.

Lemma emits_at_raise_for_status P r st : emits_at P (raise_for_status r) st.
Proof. unfold raise_for_status. destruct (ok r); now apply emits_at_nothing. Qed.

Lemma emits_at_getitem {V} P (d : gmap string V) key st : emits_at P (getitem d key) st.
Proof. unfold getitem. destruct (d !! key); now apply emits_at_nothing. Qed.

Lemma emits_at_strip_field P field st : emits_at P (strip_field field) st.
Proof. destruct field; now apply emits_at_nothing. Qed.

Lemma emits_at_int_field P int_of_str field st : emits_at P (int_field int_of_str field) st.
Proof.
  unfold int_field. destruct field as [s|]; [destruct (int_of_str s)|];
    now apply emits_at_nothing.
Qed.

Lemma emits_at_int_json P int_of_str v st : emits_at P (int_json int_of_str v) st.
Proof.
  destruct v; try (now apply emits_at_nothing).
  apply (emits_at_int_field P int_of_str (Some s)).
Qed.

(** Apply the rule for the construct at the head of an [emits_at] goal. *)
Ltac emits_step :=
  lazymatch goal with
  | |- emits_at _ (mbind _ _) _ => apply emits_at_bind; [|intros ? ? _]
  | |- emits_at _ (mret _) _ => apply emits_at_ret
  | |- emits_at _ (raise _) _ => apply emits_at_raise
  | |- emits_at _ return_ _ => apply emits_at_return
  | |- emits_at _ (print _) _ => apply emits_at_print
  | |- emits_at _ (debug _) _ => apply emits_at_debug
  | |- emits_at _ (send _ _ _ _) _ => apply emits_at_send; intros ?
  | |- emits_at _ (raise_for_status _) _ => apply emits_at_raise_for_status
  | |- emits_at _ (set_csrf _) _ => apply emits_at_nothing; reflexivity
  | |- emits_at _ (getitem _ _) _ => apply emits_at_getitem
  | |- emits_at _ (strip_field _) _ => apply emits_at_strip_field
  | |- emits_at _ (int_field _ _) _ => apply emits_at_int_field
  | |- emits_at _ (int_json _ _) _ => apply emits_at_int_json
  | |- emits_at _ (if ?b then _ else _) _ => destruct b
  | |- emits_at _ (match ?x with _ => _ end) _ => destruct x
  end.

Section Loops.

Variable int_of_str : string -> option Z.
Variable ip_address : string -> bool.
Variable server : controller.
Variable P : event -> Prop.

(** [P] holds of everything but summaries. *)
Hypothesis P_plain : forall ev, is_summary ev = false -> P ev.

Lemma process_row_emits vlan_map api row counts st :
  emits_at P (process_row int_of_str ip_address server vlan_map api row counts) st.
Proof.
  unfold process_row. destruct counts as [sc ec].
  repeat emits_step; apply P_plain; reflexivity.
Qed.

Lemma for_rows_emits vlan_map api fieldnames records counts st :
  emits_at P (for_rows int_of_str ip_address server vlan_map api fieldnames records counts) st.
Proof.
  revert counts st. induction records as [|[[|x record]|] rest IH]; intros counts st; simpl.
  - apply emits_at_ret.
  - apply IH.
  - apply emits_at_bind; [apply process_row_emits | intros; apply IH].
  - apply emits_at_raise.
Qed.

End Loops.

Section NetLoop.

Variable int_of_str : string -> option Z.
Variable P : event -> Prop.

(** [P] holds of every printed line but summaries. *)
Hypothesis P_print : forall m, is_summary (Print m) = false -> P (Print m).

Lemma net_step_emits net maps st : emits_at P (net_step int_of_str net maps) st.
Proof.
  unfold net_step. destruct maps as [vlan_map subnet_map].
  repeat emits_step; apply P_print; reflexivity.
Qed.

Lemma for_nets_emits nets maps st : emits_at P (for_nets int_of_str nets maps) st.
Proof.
  revert maps st. induction nets as [|net rest IH]; intros maps st; simpl.
  - apply emits_at_ret.
  - apply emits_at_bind; [apply net_step_emits | intros; apply IH].
Qed.

End NetLoop.

(** ** The counters *)

Section Counters.

Variable int_of_str : string -> option Z.
Variable ip_address : string -> bool.
Variable server : controller.
Variable vlan_map : gmap Z json.
Variable api : string.

(** A row that does not raise moves exactly one counter, by one. *)
Lemma process_row_counts row sc ec st sc' ec' st' :
  process_row int_of_str ip_address server vlan_map api row (sc, ec) st
  = (Done (sc', ec'), st') ->
  (sc' = S sc /\ ec' = ec) \/ (sc' = sc /\ ec' = S ec).
Proof.
  unfold process_row, int_field, send. unfold_M.
  intros H. repeat case_match; simplify_eq; auto.
Qed.

(** The loop never executes a [return]. *)
Lemma process_row_no_return row counts st st' :
  process_row int_of_str ip_address server vlan_map api row counts st
  <> (Returned, st').
Proof.
  unfold process_row, int_field, send. unfold_M.
  intros H. repeat case_match; simplify_eq.
Qed.

Lemma for_rows_counts fieldnames records sc ec st sc' ec' st' :
  for_rows int_of_str ip_address server vlan_map api fieldnames records (sc, ec) st
  = (Done (sc', ec'), st') ->
  (sc' + ec' = sc + ec + length (List.filter is_row records))%nat.
Proof.
  revert sc ec st.
  induction records as [|[[|x record]|] rest IH]; intros sc ec st H.
  - simpl in H. unfold_M. simplify_eq. simpl. lia.
  - simpl in *. now apply IH in H.
  - rewrite for_rows_step in H.
    destruct (process_row _ _ _ _ _ _ _ _) as [[[sc1 ec1]| |e] st1] eqn:Hrow;
      try discriminate.
    apply process_row_counts in Hrow. apply IH in H. simpl. lia.
  - simpl in H. discriminate.
Qed.

Lemma for_rows_no_return fieldnames records counts st st' :
  for_rows int_of_str ip_address server vlan_map api fieldnames records counts st
  <> (Returned, st').
Proof.
  revert counts st.
  induction records as [|[[|x record]|] rest IH]; intros counts st H.
  - simpl in H. discriminate.
  - simpl in H. now apply IH in H.
  - rewrite for_rows_step in H.
    destruct (process_row _ _ _ _ _ _ _ _) as [[counts1| |e] st1] eqn:Hrow;
      try discriminate.
    + now apply IH in H.
    + now apply process_row_no_return in Hrow.
  - simpl in H. discriminate.
Qed.

(** The CSV block prints a summary only after the whole loop, and the
    summary counts the data rows. *)
Lemma with_csv_emits_summary_ok csv st :
  emits_at (summary_ok csv)
    (with_csv int_of_str ip_address server vlan_map api csv) st.
Proof.
  assert (forall ev, is_summary ev = false -> summary_ok csv ev) as Hplain.
  { intros ev Hev s e ->. discriminate. }
  destruct csv as [| |records]; simpl; try apply emits_at_raise.
  apply emits_at_bind.
  { destruct records as [|[hdr|] rest]; simpl; now apply emits_at_nothing. }
  intros fieldnames st1 Hfn. apply emits_at_bind.
  { destruct fieldnames; now apply emits_at_nothing. }
  intros complete st2 _. destruct complete; simpl.
  - apply emits_at_bind; [now apply for_rows_emits|].
    intros [sc ec] st3 Hrows. apply emits_at_print.
    intros s e [= -> ->]. exists records. split; [reflexivity|].
    apply for_rows_counts in Hrows. unfold data_rows. simpl in Hrows. lia.
  - repeat emits_step. now apply Hplain.
Qed.

(** When the header lacks a required column the block prints one line and
    returns: the records after the header are never looked at. *)
Lemma with_csv_incomplete header rest st :
  forallb (fun field => bool_decide (field ∈ header)) required_fields = false ->
  with_csv int_of_str ip_address server vlan_map api (Records (Some header :: rest)) st
  = (Returned, logged st [Print MsgCsvColumns]).
Proof.
  intros H. unfold with_csv, read_fieldnames, has_required. unfold_M.
  rewrite H. reflexivity.
Qed.

End Counters.

(** ** The whole run *)

Lemma no_upserts evs :
  Forall (fun ev => is_upsert ev = false) evs -> upserts evs = [].
Proof.
  induction 1 as [|ev evs Hev _ IH]; [reflexivity|].
  change (ev :: evs) with ([ev] ++ evs). rewrite upserts_app, IH, app_nil_r.
  destruct ev as [m|[mt u c [| |p]]]; try reflexivity. discriminate.
Qed.

Lemma summary_in_log P evs s e :
  Forall P evs -> In (s, e) (summaries evs) -> P (Print (MsgSummary s e)).
Proof.
  intros Hall Hin. apply list_elem_of_In, list_elem_of_omap in Hin as (ev & Hev & Hs).
  rewrite Forall_forall in Hall. specialize (Hall ev Hev).
  destruct ev as [[]|]; simplify_eq. exact Hall.
Qed.

Section Run.

Variable int_of_str : string -> option Z.
Variable ip_address : string -> bool.
Variable cfg : secrets.
Variable server : controller.

Local Abbreviation connect' := (connect int_of_str cfg server).
Local Abbreviation with_csv' := (with_csv int_of_str ip_address server).
Local Abbreviation import_csv' := (import_csv int_of_str ip_address cfg server).
Local Abbreviation main_try' := (main_try int_of_str ip_address cfg server).
Local Abbreviation logout' := (logout cfg server).
Local Abbreviation main' := (main int_of_str ip_address cfg server).

Section Emitted.

Variable P : event -> Prop.

(** [P] holds of every print but a summary and of every request but a
    reservation. *)
Hypothesis P_session :
  forall ev, is_summary ev = false -> is_upsert ev = false -> P ev.

Lemma connect_emits st : emits_at P connect' st.
Proof.
  unfold connect.
  repeat first
    [ apply for_nets_emits; intros m Hm; now apply P_session
    | emits_step; try (apply P_session; reflexivity) ].
Qed.

Lemma logout_emits st : emits_at P logout' st.
Proof.
  unfold logout. apply emits_at_try_except.
  - repeat (emits_step; try (apply P_session; reflexivity)).
  - intros e h st' _ [= <-]. apply emits_at_ret.
Qed.

Lemma main_emits csv :
  (forall vlan_map st, emits_at P (with_csv' vlan_map (api cfg) csv) st) ->
  emits P (main' csv).
Proof.
  intros Hcsv st. unfold main, main_try. apply emits_at_try_finally.
  - apply emits_at_try_except.
    + apply emits_at_bind; [apply connect_emits|].
      intros vlan_map st1 _. unfold import_csv. apply emits_at_try_except.
      * apply Hcsv.
      * intros e h st2 _ Hh. destruct e; simplify_eq.
        repeat (emits_step; try (apply P_session; reflexivity)).
    + intros e h st1 _ Hh.
      destruct e; simplify_eq; apply emits_at_print, P_session; reflexivity.
  - apply logout_emits.
Qed.

End Emitted.

(** [main()] never lets an exception out. *)
Lemma main_try_result csv st :
  (main_try' csv st).1 = Done tt \/ (main_try' csv st).1 = Returned.
Proof.
  unfold main_try, try_except.
  match goal with
  | |- context [match ?run with _ => _ end] => destruct run as [[[]| |e] st1]
  end; simpl; auto.
  destruct e; simpl; auto.
Qed.

(** The logout: one request, a confirmation if it was answered, and never
    an exception. *)
Lemma logout_run st :
  logout' st = (Done tt, logged st (logout_events cfg server st)).
Proof.
  unfold logout, try_except, send, logout_events, logout_request, logged. unfold_M.
  destruct (server _ _); simpl; [|reflexivity].
  now rewrite <- app_assoc.
Qed.

Lemma main_run csv st :
  main' csv st
  = ((main_try' csv st).1,
     logged (main_try' csv st).2 (logout_events cfg server (main_try' csv st).2)).
Proof.
  unfold main, try_finally.
  destruct (main_try' csv st) as [r st1]. now rewrite logout_run.
Qed.

Lemma main_no_raise csv st e : (main' csv st).1 <> Raised e.
Proof.
  rewrite main_run. simpl. destruct (main_try_result csv st) as [-> | ->]; discriminate.
Qed.

(** Where the summary sits in what [main()] logs before the logout. *)
Lemma with_csv_summary_last vlan_map csv st :
  exists evs,
    log (with_csv' vlan_map (api cfg) csv st).2 = log st ++ evs
    /\ summary_last evs (with_csv' vlan_map (api cfg) csv st).1.
Proof.
  assert (forall ev, is_summary ev = false -> is_summary ev = false) as Hplain by auto.
  destruct csv as [| |[|[names|] rest]].
  1, 2, 3, 5: exists []; rewrite app_nil_r; split; [reflexivity | left; constructor].
  unfold with_csv, read_fieldnames, has_required. unfold_M. cbn [default tail].
  destruct (forallb _ required_fields); cbn [negb].
  - destruct (for_rows_emits int_of_str ip_address server _ Hplain vlan_map (api cfg)
                names rest (0%nat, 0%nat) st) as (evs & Hlog & Hevs).
    destruct (for_rows _ _ _ _ _ _ _ _ st) as [[[sc ec]| |e] st2]; simpl in *.
    + exists (evs ++ [Print (MsgSummary sc ec)]). rewrite Hlog, app_assoc.
      split; [reflexivity|]. right. split; [reflexivity|]. eauto.
    + exists evs. split; [assumption | now left].
    + exists evs. split; [assumption | now left].
  - exists [Print MsgCsvColumns]. split; [reflexivity|].
    left. now repeat constructor.
Qed.

Lemma summary_last_after evs0 evs r :
  Forall (fun ev => is_summary ev = false) evs0 ->
  summary_last evs r -> summary_last (evs0 ++ evs) r.
Proof.
  intros H0 [H | (-> & pre & s & e & -> & Hpre)].
  - left. now apply Forall_app.
  - right. split; [reflexivity|]. exists (evs0 ++ pre), s, e.
    rewrite app_assoc. split; [reflexivity | now apply Forall_app].
Qed.

Lemma import_csv_summary_last vlan_map csv st :
  exists evs,
    log (import_csv' vlan_map csv st).2 = log st ++ evs
    /\ summary_last evs (import_csv' vlan_map csv st).1.
Proof.
  destruct (with_csv_summary_last vlan_map csv st) as (evs & Hlog & Hlast).
  unfold import_csv, try_except.
  destruct (with_csv' vlan_map (api cfg) csv st) as [[[]| |e] st1]; simpl in *; eauto.
  destruct Hlast as [Hnone | (? & _)]; [|discriminate].
  destruct e; simpl; try (exists evs; split; [assumption | now left]).
  exists (evs ++ [Print MsgCsvNotFound]). unfold_M. simpl.
  rewrite Hlog, app_assoc. split; [reflexivity|].
  left. apply Forall_app. split; [assumption | now repeat constructor].
Qed.

Lemma main_try_summary_last csv st :
  exists evs,
    log (main_try' csv st).2 = log st ++ evs
    /\ summary_last evs (main_try' csv st).1.
Proof.
  destruct (connect_emits (fun ev => is_summary ev = false) (fun ev H _ => H) st)
    as (evs0 & Hlog0 & Hevs0).
  unfold main_try, try_except, mbind, M_mbind, M_bind.
  destruct (connect' st) as [[vlan_map| |e] st1]; simpl in *.
  - destruct (import_csv_summary_last vlan_map csv st1) as (evs & Hlog & Hlast).
    destruct (import_csv' vlan_map csv st1) as [[[]| |e] st2]; simpl in *.
    + exists (evs0 ++ evs). rewrite Hlog, Hlog0, app_assoc.
      split; [reflexivity | now apply summary_last_after].
    + exists (evs0 ++ evs). rewrite Hlog, Hlog0, app_assoc.
      split; [reflexivity | now apply summary_last_after].
    + destruct Hlast as [Hnone | (? & _)]; [|discriminate].
      exists (evs0 ++ evs ++ [Print (if exn_eqb e RequestException
                                     then MsgNetworkError e else MsgError e)]).
      split.
      * destruct e; simpl; rewrite Hlog, Hlog0, <- !app_assoc; reflexivity.
      * left. rewrite !Forall_app. repeat split; try assumption.
        destruct e; now repeat constructor.
  - exists evs0. split; [assumption | now left].
  - exists (evs0 ++ [Print (if exn_eqb e RequestException
                            then MsgNetworkError e else MsgError e)]).
    split.
    + destruct e; simpl; rewrite Hlog0, <- ?app_assoc; reflexivity.
    + left. rewrite Forall_app. split; [assumption|].
      destruct e; now repeat constructor.
Qed.

End Run.

Lemma script_log int_of_str ip_address cfg server csv :
  (script int_of_str ip_address (Some cfg) server csv).2
  = log (main int_of_str ip_address cfg server csv initial).2.
Proof.
  unfold script. destruct (main _ _ _ _ _ _) as [[[]| |e] st]; reflexivity.
Qed.

Lemma import_csv_incomplete int_of_str ip_address cfg server vlan_map header rest st :
  forallb (fun field => bool_decide (field ∈ header)) required_fields = false ->
  import_csv int_of_str ip_address cfg server vlan_map (Records (Some header :: rest)) st
  = (Returned, logged st [Print MsgCsvColumns]).
Proof.
  intros H. unfold import_csv, try_except. now rewrite with_csv_incomplete.
Qed.

Lemma main_incomplete int_of_str ip_address cfg server header rest st :
  forallb (fun field => bool_decide (field ∈ header)) required_fields = false ->
  main int_of_str ip_address cfg server (Records (Some header :: rest)) st
  = main int_of_str ip_address cfg server (Records [Some header]) st.
Proof.
  intros H. unfold main, try_finally, main_try, try_except, mbind, M_mbind, M_bind.
  destruct (connect int_of_str cfg server st) as [[vlan_map| |e] st1]; try reflexivity.
  now rewrite !import_csv_incomplete.
Qed.

(** C2. Every data row that does not raise moves exactly one of the two
    counters, by exactly one; and whenever the run prints its summary, the
    two counters add up to the number of data rows of the CSV. *)
Theorem summary_counts_data_rows int_of_str ip_address :
  (forall server vlan_map api row sc ec st sc' ec' st',
     process_row int_of_str ip_address server vlan_map api row (sc, ec) st
     = (Done (sc', ec'), st') ->
     (sc' = S sc /\ ec' = ec) \/ (sc' = sc /\ ec' = S ec))
  /\ (forall secrets_py server csv s e,
        In (s, e) (summaries (script int_of_str ip_address secrets_py server csv).2) ->
        exists records, csv = Records records /\ (s + e)%nat = data_rows records).
Proof.
  split.
  - intros *. apply process_row_counts.
  - intros [cfg|] server csv s e Hin; [|destruct Hin].
    rewrite script_log in Hin.
    destruct (main_emits int_of_str ip_address cfg server (summary_ok csv)) with
      (csv := csv) (st := initial) as (evs & Hlog & Hevs).
    + intros ev Hev _ s' e' ->. discriminate.
    + intros vlan_map st. apply with_csv_emits_summary_ok.
    + rewrite Hlog in Hin. simpl in Hin.
      now apply (summary_in_log _ _ _ _ Hevs Hin).
Qed.

Lemma summary_counts_data_rows_witness :
  exists records,
    Demo.devices = Records records /\ (1 + 2)%nat = data_rows records.
Proof.
  apply (proj2 (summary_counts_data_rows PyLib.int_of_str PyLib.ip_address)
           (Some Demo.cfg) Demo.server Demo.devices 1%nat 2%nat).
  vm_compute. left. reflexivity.
Defined.

(** C6. When the header lacks one of VLAN, MAC, Client Name, IP, the run is
    the same whatever records follow the header (none of them is
    processed), and it makes no reservation request. *)
Theorem missing_column_aborts int_of_str ip_address cfg server header rest :
  forallb (fun field => bool_decide (field ∈ header)) required_fields = false ->
  script int_of_str ip_address (Some cfg) server (Records (Some header :: rest))
  = script int_of_str ip_address (Some cfg) server (Records [Some header])
  /\ upserts (script int_of_str ip_address (Some cfg) server
                (Records (Some header :: rest))).2 = [].
Proof.
  intros H. split.
  - unfold script. now rewrite main_incomplete.
  - rewrite script_log.
    destruct (main_emits int_of_str ip_address cfg server
                (fun ev => is_upsert ev = false))
      with (csv := Records (Some header :: rest)) (st := initial)
      as (evs & Hlog & Hevs).
    + auto.
    + intros vlan_map st. exists [Print MsgCsvColumns].
      rewrite with_csv_incomplete by assumption.
      split; [reflexivity | now repeat constructor].
    + rewrite Hlog. simpl. now apply no_upserts.
Qed.

Lemma missing_column_aborts_witness :
  Demo.run Demo.server Demo.no_ip_column
  = Demo.run Demo.server (Records [Some ["VLAN"; "MAC"; "Client Name"]])
  /\ upserts (Demo.run Demo.server Demo.no_ip_column).2 = [].
Proof.
  apply (missing_column_aborts PyLib.int_of_str PyLib.ip_address Demo.cfg Demo.server
           ["VLAN"; "MAC"; "Client Name"] [Some Demo.row_a; Some Demo.row_b]).
  vm_compute. reflexivity.
Defined.

(** C7, as the code has it.  On every path of [main()] the logout is
    attempted, after everything else; whether it succeeds or fails, the
    outcome of [main()] is the outcome of its [try] block and is never an
    exception.  The summary is printed only when the row loop ran to its
    end: whatever [main()] logs before the logout either holds no summary
    or ends with it. *)
Theorem logout_always_attempted int_of_str ip_address cfg server csv st :
  let body := main_try int_of_str ip_address cfg server csv st in
  let out := main int_of_str ip_address cfg server csv st in
  log out.2 = log body.2 ++ logout_events cfg server body.2
  /\ In (Http (logout_request cfg (session_csrf body.2))) (log out.2)
  /\ out.1 = body.1
  /\ (out.1 = Done tt \/ out.1 = Returned)
  /\ exists evs, log body.2 = log st ++ evs /\ summary_last evs body.1.
Proof.
  cbn zeta. rewrite main_run. cbn [fst snd logged log].
  split; [reflexivity|]. split.
  { apply in_or_app. right. left. reflexivity. }
  split; [reflexivity|]. split; [apply main_try_result|].
  apply main_try_summary_last.
Qed.

(** C7 as stated fails: when the controller cannot be reached, the run
    logs out but prints no summary. *)
Lemma summary_not_printed_on_abort :
  In (Http (logout_request Demo.cfg None)) (Demo.run Demo.offline Demo.devices).2
  /\ ~ exists s e, In (Print (MsgSummary s e)) (Demo.run Demo.offline Demo.devices).2.
Proof.
  split.
  - vm_compute. auto.
  - intros (s & e & H). vm_compute in H.
    repeat (destruct H as [H|H]; [discriminate|]). destruct H.
Qed.

(** C8. The exit status is 1 when secrets.py cannot be imported (two lines
    are printed and nothing is requested) and 0 in every other case,
    whatever the controller answers and whatever the CSV holds; an
    exception raised anywhere in the [try] block of [main()] is printed as
    a one-line error. *)
Theorem exit_status int_of_str ip_address secrets_py server csv :
  let run := script int_of_str ip_address secrets_py server csv in
  match secrets_py with
  | None => run = (1, [Print MsgSecretsNotFound; Print MsgSecretsHint])
  | Some cfg =>
      run.1 = 0
      /\ match (connect int_of_str cfg server
                ≫= fun vlan_map =>
                     import_csv int_of_str ip_address cfg server vlan_map csv)
                 initial with
         | (Raised e, _) =>
             In (Print match e with
                       | RequestException => MsgNetworkError e
                       | _ => MsgError e
                       end) run.2
         | _ => True
         end
  end.
Proof.
  destruct secrets_py as [cfg|]; [|reflexivity].
  cbn zeta. split.
  - unfold script.
    pose proof (main_no_raise int_of_str ip_address cfg server csv initial) as H.
    destruct (main _ _ _ _ _ _) as [[[]| |e] st]; try reflexivity.
    now destruct (H e).
  - rewrite script_log, main_run. cbn [fst snd logged log].
    unfold main_try, try_except.
    match goal with
    | |- context [match ?body with _ => _ end] =>
        destruct body as [[[]| |e] st1]
    end; try exact I.
    apply in_or_app. left. destruct e; simpl; apply in_or_app; right; now left.
Qed.

(** ** The VLAN map *)

Section VlanMap.

Variable int_of_str : string -> option Z.

Local Abbreviation rule_key' := (rule_key int_of_str).
Local Abbreviation last_with_key' := (last_with_key int_of_str).

Lemma int_json_done v st n st' :
  int_json int_of_str v st = (Done n, st') -> coerce int_of_str v = Some n /\ st' = st.
Proof.
  destruct v; simpl; unfold int_field; unfold_M; intros H;
    repeat case_match; simplify_eq; auto.
Qed.

Lemma int_json_total v n st :
  coerce int_of_str v = Some n -> int_json int_of_str v st = (Done n, st).
Proof.
  destruct v; simpl; unfold int_field; unfold_M; intros H;
    repeat case_match; simplify_eq; auto.
Qed.

(** The test of line 73 is the first case of the rule. *)
Lemma corporate_default_rule net :
  corporate_default net = true -> rule_key' net = Some 1.
Proof.
  unfold corporate_default, rule_key. destruct (net !! "purpose") as [p|]; [|discriminate].
  simpl. now intros ->.
Qed.

Lemma not_corporate_default_rule net :
  corporate_default net = false ->
  rule_key' net = net !! "vlan" ≫= coerce int_of_str.
Proof.
  unfold corporate_default, rule_key. destruct (net !! "purpose") as [p|]; simpl.
  - now intros ->.
  - reflexivity.
Qed.

(** What one pass of the loop body does to the two maps. *)
Lemma net_step_done net vlan_map subnet_map st vlan_map' subnet_map' st' :
  net_step int_of_str net (vlan_map, subnet_map) st
  = (Done (vlan_map', subnet_map'), st') ->
  match rule_key' net with
  | Some k =>
      (exists id, net !! "_id" = Some id /\ vlan_map' = <[k := id]> vlan_map)
      /\ (exists sn, Some (ip_subnet net) = Some sn /\ subnet_map' = <[k := sn]> subnet_map)
  | None => vlan_map' = vlan_map /\ subnet_map' = subnet_map
  end.
Proof.
  unfold net_step. destruct (corporate_default net) eqn:Hcd.
  - rewrite (corporate_default_rule net Hcd). unfold_M.
    destruct (net !! "_id") as [id|]; intros H; simplify_eq. split; eauto.
  - rewrite (not_corporate_default_rule net Hcd).
    destruct (net !! "vlan") as [v|]; simpl.
    + unfold mbind at 1, M_mbind, M_bind.
      destruct (int_json int_of_str v st) as [[n| |e] st1] eqn:Hint; try discriminate.
      apply int_json_done in Hint as [-> ->]. unfold_M.
      destruct (net !! "_id") as [id|]; intros H; simplify_eq. split; eauto.
    + unfold_M. intros H. now simplify_eq.
Qed.

Lemma last_with_key_nil k net : ~ last_with_key' [] k net.
Proof. intros (before & after & H & _). now destruct before. Qed.

Lemma last_with_key_cons x nets k net :
  last_with_key' (x :: nets) k net
  <-> last_with_key' nets k net
      \/ (net = x /\ rule_key' x = Some k /\ Forall (fun n => rule_key' n <> Some k) nets).
Proof.
  split.
  - intros ([|y before] & after & Heq & Hk & Hafter); simplify_eq/=.
    + right. auto.
    + left. exists before, after. auto.
  - intros [(before & after & -> & Hk & Hafter) | (-> & Hk & Hafter)].
    + exists (x :: before), after. auto.
    + exists [], nets. auto.
Qed.

(** One step of the characterisation, for either map: [val] is what the
    loop stores for an object. *)
Lemma step_lookup (val : network -> option json) net rest k (m0 m1 m : gmap Z json) :
  match rule_key' net with
  | Some k0 => exists v, val net = Some v /\ m1 = <[k0 := v]> m0
  | None => m1 = m0
  end ->
  (forall v, m !! k = Some v
             <-> (exists n, last_with_key' rest k n /\ val n = Some v)
                 \/ (Forall (fun n => rule_key' n <> Some k) rest /\ m1 !! k = Some v)) ->
  forall v, m !! k = Some v
            <-> (exists n, last_with_key' (net :: rest) k n /\ val n = Some v)
                \/ (Forall (fun n => rule_key' n <> Some k) (net :: rest)
                    /\ m0 !! k = Some v).
Proof.
  intros Hstep IH v. rewrite IH. clear IH.
  setoid_rewrite last_with_key_cons. rewrite Forall_cons.
  destruct (rule_key' net) as [k0|] eqn:Hkey.
  - destruct Hstep as (v0 & Hval & ->). destruct (decide (k0 = k)) as [->|Hne].
    + rewrite lookup_insert_eq. split.
      * intros [(n & Hn & Hv) | (Hrest & [= <-])]; left; [exists n | exists net]; auto.
      * intros [(n & [Hn | (-> & _ & Hrest)] & Hv) | ((Hk & _) & _)].
        -- left. eauto.
        -- right. split; [assumption | congruence].
        -- now destruct Hk.
    + rewrite lookup_insert_ne by assumption. split.
      * intros [(n & Hn & Hv) | (Hrest & Hv)]; [left; eauto|].
        right. split; [split; [congruence | assumption] | assumption].
      * intros [(n & [Hn | (-> & Hk & _)] & Hv) | ((_ & Hrest) & Hv)];
          [left; eauto | congruence | right; auto].
  - subst m1. split.
    + intros [(n & Hn & Hv) | (Hrest & Hv)]; [left; eauto|].
      right. split; [split; [congruence | assumption] | assumption].
    + intros [(n & [Hn | (-> & Hk & _)] & Hv) | ((_ & Hrest) & Hv)];
        [left; eauto | congruence | right; auto].
Qed.

(** The loop from any two maps. *)
Lemma for_nets_lookup nets vlan_map0 subnet_map0 st vlan_map subnet_map st' k :
  for_nets int_of_str nets (vlan_map0, subnet_map0) st
  = (Done (vlan_map, subnet_map), st') ->
  (forall id, vlan_map !! k = Some id
              <-> (exists n, last_with_key' nets k n /\ n !! "_id" = Some id)
                  \/ (Forall (fun n => rule_key' n <> Some k) nets
                      /\ vlan_map0 !! k = Some id))
  /\ (forall sn, subnet_map !! k = Some sn
                 <-> (exists n, last_with_key' nets k n /\ Some (ip_subnet n) = Some sn)
                     \/ (Forall (fun n => rule_key' n <> Some k) nets
                         /\ subnet_map0 !! k = Some sn)).
Proof.
  revert vlan_map0 subnet_map0 st.
  induction nets as [|net rest IH]; intros vlan_map0 subnet_map0 st H.
  - simpl in H. unfold_M. simplify_eq.
    split; intros v; (split; [intros Hv; right; auto|]);
      (intros [(n & Hn & _) | (_ & Hv)]; [now apply last_with_key_nil in Hn | assumption]).
  - cbn [for_nets] in H. unfold mbind, M_mbind, M_bind in H.
    destruct (net_step int_of_str net (vlan_map0, subnet_map0) st)
      as [[[vlan_map1 subnet_map1]| |e] st1] eqn:Hstep; try discriminate.
    apply net_step_done in Hstep. apply IH in H as [IHv IHs].
    split.
    + apply (step_lookup (fun n => n !! "_id") net rest k vlan_map0 vlan_map1);
        [|exact IHv].
      destruct (rule_key' net); [apply Hstep | apply Hstep].
    + apply (step_lookup (fun n => Some (ip_subnet n)) net rest k subnet_map0 subnet_map1);
        [|exact IHs].
      destruct (rule_key' net); [apply Hstep | apply Hstep].
Qed.

(** The loop runs to its end on objects it can take. *)
Lemma for_nets_completes nets maps st :
  Forall (buildable int_of_str) nets ->
  exists maps' st', for_nets int_of_str nets maps st = (Done maps', st').
Proof.
  intros Hall. revert maps st.
  induction Hall as [|net rest [Hvlan Hid] _ IH]; intros [vlan_map subnet_map] st.
  - simpl. unfold_M. eauto.
  - cbn [for_nets]. unfold mbind, M_mbind, M_bind.
    assert (exists maps1 st1,
              net_step int_of_str net (vlan_map, subnet_map) st = (Done maps1, st1))
      as (maps1 & st1 & ->); [|apply IH].
    unfold net_step. destruct (corporate_default net) eqn:Hcd.
    + destruct Hid as [id Hid]; [rewrite (corporate_default_rule net Hcd); eauto|].
      unfold_M. rewrite Hid. eauto.
    + rewrite (not_corporate_default_rule net Hcd) in Hvlan, Hid.
      destruct (net !! "vlan") as [v|]; [|unfold_M; eauto].
      destruct Hvlan as [n Hn]; [eauto|]. simpl in Hn, Hid.
      destruct Hid as [id Hid]; [eauto|].
      unfold mbind at 1, M_mbind, M_bind.
      rewrite (int_json_total v n st Hn). unfold_M. rewrite Hid. eauto.
Qed.

End VlanMap.

(** C1. The loop over the controller's network list takes the objects in
    list order and, when it can take them all, ends with two maps in which
    a VLAN number [k] is bound exactly when the rule gives [k] to some
    object, and then to the identifier (and the subnet) of the last such
    object: 1 for a corporate network with no [vlan] or [vlan == 1], the
    coerced [vlan] for any other object that has one, nothing for the
    rest. *)
Theorem vlan_map_last_occurrence_wins int_of_str nets st :
  (Forall (buildable int_of_str) nets ->
   exists vlan_map subnet_map st',
     for_nets int_of_str nets (∅, ∅) st = (Done (vlan_map, subnet_map), st'))
  /\ (forall vlan_map subnet_map st',
        for_nets int_of_str nets (∅, ∅) st = (Done (vlan_map, subnet_map), st') ->
        forall k,
          (forall id, vlan_map !! k = Some id
                      <-> exists net, last_with_key int_of_str nets k net
                                      /\ net !! "_id" = Some id)
          /\ (forall sn, subnet_map !! k = Some sn
                         <-> exists net, last_with_key int_of_str nets k net
                                         /\ ip_subnet net = sn)).
Proof.
  split.
  - intros Hall.
    destruct (for_nets_completes int_of_str nets (∅, ∅) st Hall)
      as ([vlan_map subnet_map] & st' & H).
    eauto.
  - intros vlan_map subnet_map st' H k.
    destruct (for_nets_lookup int_of_str nets ∅ ∅ st vlan_map subnet_map st' k H)
      as [Hv Hs].
    split.
    + intros id. rewrite Hv. split; [|auto].
      intros [Hn | (_ & Hempty)]; [assumption|].
      now rewrite lookup_empty in Hempty.
    + intros sn. rewrite Hs. split.
      * intros [(n & Hn & [= <-]) | (_ & Hempty)]; [eauto|].
        now rewrite lookup_empty in Hempty.
      * intros (n & Hn & <-). left. eauto.
Qed.

Lemma vlan_map_last_occurrence_wins_witness :
  (exists vlan_map subnet_map st',
     for_nets PyLib.int_of_str Demo.networks (∅, ∅) initial
     = (Done (vlan_map, subnet_map), st'))
  /\ (exists net, last_with_key PyLib.int_of_str Demo.networks 10 net
                  /\ net !! "_id" = Some (JStr "net-10")).
Proof.
  pose proof (vlan_map_last_occurrence_wins PyLib.int_of_str Demo.networks initial)
    as [Hruns Hmaps].
  split.
  - apply Hruns. unfold Demo.networks, buildable.
    repeat (constructor;
            [split; (intros [x Hx]; vm_compute in Hx; try discriminate);
             vm_compute; eauto|]).
    constructor.
  - apply (Hmaps Demo.vlans Demo.subnets
             (for_nets PyLib.int_of_str Demo.networks (∅, ∅) initial).2).
    + vm_compute. reflexivity.
    + vm_compute. reflexivity.
Defined.

(** ** The scenario of the specification, run *)

(** Row A succeeds, row B names an unknown VLAN, row C has a bad IP: one
    request, and the summary "1 configured, 2 errors". *)
Example scenario_run :
  (Demo.run Demo.server Demo.devices).1 = 0
  /\ summaries (Demo.run Demo.server Demo.devices).2 = [(1%nat, 2%nat)]
  /\ map fixed_ip (upserts (Demo.run Demo.server Demo.devices).2) = ["10.0.10.5"].
Proof. vm_compute. auto. Qed.

(** The two literals the specification names are rejected by the model of
    [ipaddress.ip_address]; well-formed IPv4 and IPv6 literals are not. *)
Example rejected_literals :
  PyLib.ip_address "999.999.1.1" = false
  /\ PyLib.ip_address "not-an-ip" = false
  /\ PyLib.ip_address "10.0.10.5" = true
  /\ PyLib.ip_address "fe80::1" = true.
Proof. vm_compute. auto. Qed.

(** * Further properties of the script *)

(** ** MAC normalisation and the debug listing *)

Lemma mac_map_clean c : negb (mac_removed (mac_map c)) = true.
Proof. TextFacts.by_cases_on_char c. Qed.

Lemma all_chars_map (p : ascii -> bool) (f : ascii -> ascii) s :
  (forall c, p (f c) = true) -> Text.all_chars p (Text.map_chars f s) = true.
Proof.
  intros H. induction s as [|c s IH]; simpl; [reflexivity|]. now rewrite H, IH.
Qed.

Lemma length_map_chars f s : String.length (Text.map_chars f s) = String.length s.
Proof. induction s as [|c s IH]; simpl; [reflexivity | now rewrite IH]. Qed.

Lemma length_lstrip s : (String.length (Text.lstrip s) <= String.length s)%nat.
Proof.
  induction s as [|c s IH]; simpl; [lia|].
  destruct (Text.is_space c); simpl; lia.
Qed.

Lemma length_rstrip s : (String.length (Text.rstrip s) <= String.length s)%nat.
Proof.
  induction s as [|c s IH]; simpl; [lia|].
  destruct (Text.rstrip s); [destruct (Text.is_space c)|]; simpl in *; lia.
Qed.


(** X2. The "Available VLANs" debug line lists the keys of the VLAN map,
    each once, in ascending order. *)
Theorem available_vlans_sorted (vlan_map : gmap Z json) :
  Sorted Z.le (sorted_keys vlan_map)
  /\ NoDup (sorted_keys vlan_map)
  /\ forall k, k ∈ sorted_keys vlan_map <-> is_Some (vlan_map !! k).
Proof.
  unfold sorted_keys. repeat split.
  - apply (Sorted_merge_sort Z.le).
  - rewrite merge_sort_Permutation. apply NoDup_fst_map_to_list.
  - rewrite merge_sort_Permutation. intros Hk.
    apply list_elem_of_fmap in Hk as ([k' v] & -> & Hkv).
    apply elem_of_map_to_list in Hkv. simpl. eauto.
  - rewrite merge_sort_Permutation. intros [v Hv].
    apply list_elem_of_fmap. exists (k, v). split; [reflexivity|].
    now apply elem_of_map_to_list.
Qed.

(** ** More on one row *)

Section RowExtras.

Variable int_of_str : string -> option Z.
Variable ip_address : string -> bool.
Variable server : controller.
Variable vlan_map : gmap Z json.
Variable api : string.

Local Abbreviation process_row' := (process_row int_of_str ip_address server vlan_map api).
Local Abbreviation for_rows' := (for_rows int_of_str ip_address server vlan_map api).

(** X3. Only the four required columns of a row are read: two rows that
    agree on VLAN, MAC, Client Name and IP are processed alike, whatever
    other columns they have. *)
Theorem other_columns_ignored (row1 row2 : gmap string (option string)) counts st :
  (forall k, k ∈ required_fields -> row1 !! k = row2 !! k) ->
  process_row' row1 counts st = process_row' row2 counts st.
Proof.
  intros H.
  assert (row1 !! "VLAN" = row2 !! "VLAN") as HV
    by (apply H; unfold required_fields; set_solver).
  assert (row1 !! "MAC" = row2 !! "MAC") as HM
    by (apply H; unfold required_fields; set_solver).
  assert (row1 !! "Client Name" = row2 !! "Client Name") as HC
    by (apply H; unfold required_fields; set_solver).
  assert (row1 !! "IP" = row2 !! "IP") as HI
    by (apply H; unfold required_fields; set_solver).
  unfold process_row, getitem. now rewrite HV, HM, HC, HI.
Qed.

(** X4. What the controller answers to a reservation decides the row, and
    only a transport failure stops the loop: an OK answer counts a success,
    any other answer counts an error and prints the response body, and in
    both cases the next row is processed. *)
Theorem controller_answer_decides fieldnames x record rest sc ec st s n m ip c :
  let row := row_dict fieldnames (x :: record) in
  row !! "VLAN" = Some (Some s) ->
  int_of_str s = Some n ->
  truthy (vlan_get vlan_map n) = true ->
  row !! "MAC" = Some (Some m) ->
  row !! "IP" = Some (Some ip) ->
  ip_address (Text.strip ip) = true ->
  row !! "Client Name" = Some (Some c) ->
  let p := {| mac := normalize_mac m;
              fixed_ip := Text.strip ip;
              name := Text.strip c;
              network_id := vlan_get vlan_map n;
              use_fixedip := true;
              note := "Added by unifi.py script";
              vlan_enabled := true;
              vlan := n |} in
  let st0 := logged st [Print (MsgSetting (Text.strip c) (normalize_mac m) (Text.strip ip) n)] in
  let rq := {| method := POST; url := api; csrf_header := session_csrf st;
               body := UserBody p |} in
  let st1 := logged st0 [Http rq] in
  for_rows' fieldnames (Some (x :: record) :: rest) (sc, ec) st
  = match server (log st0) rq with
    | None => (Raised RequestException, st1)
    | Some resp =>
        if ok resp
        then for_rows' fieldnames rest (S sc, ec)
               (logged st1 [Print (MsgOk (normalize_mac m) (Text.strip ip) n)])
        else for_rows' fieldnames rest (sc, S ec)
               (logged st1 [Print (MsgFailed (normalize_mac m) (text resp))])
    end.
Proof.
  intros row HV Hn Hid HM HI Hip HC p st0 rq st1.
  rewrite for_rows_step. fold row.
  rewrite (process_row_valid int_of_str ip_address server vlan_map api
             row sc ec st s n m ip c HV Hn Hid HM HI Hip HC).
  cbn zeta. fold p. fold st0. fold rq. fold st1.
  destruct (server (log st0) rq) as [resp|]; [|reflexivity].
  destruct (ok resp); reflexivity.
Qed.

End RowExtras.

(** ** The requests and the lines of the row loop *)

Lemma normalize_mac_twice s : normalize_mac (normalize_mac s) = normalize_mac s.
Proof.
  rewrite !normalize_mac_fused.
  rewrite (TextFacts.strip_map mac_map mac_map_space).
  rewrite TextFacts.strip_idem, TextFacts.map_chars_compose.
  apply TextFacts.map_chars_ext, mac_map_idem.
Qed.

Lemma vlan_get_truthy (vlan_map : gmap Z json) n :
  truthy (vlan_get vlan_map n) = true -> vlan_map !! n = Some (vlan_get vlan_map n).
Proof.
  unfold vlan_get. destruct (vlan_map !! n); simpl; [reflexivity | discriminate].
Qed.

Lemma count_events_app p evs1 evs2 :
  count_events p (evs1 ++ evs2) = (count_events p evs1 + count_events p evs2)%nat.
Proof. unfold count_events. now rewrite List.filter_app, length_app. Qed.

(** Close a goal [log st' = log st ++ ?evs /\ ...] on explicit logs. *)
Ltac name_events :=
  cbn [log snd fst logged];
  first
    [ exists []; split; [symmetry; apply app_nil_r|]
    | eexists; split; [rewrite <- ?app_assoc; reflexivity|] ].

Section RowLoop.

Variable int_of_str : string -> option Z.
Variable ip_address : string -> bool.
Variable server : controller.
Variable vlan_map : gmap Z json.
Variable api : string.

Local Abbreviation process_row' := (process_row int_of_str ip_address server vlan_map api).
Local Abbreviation for_rows' := (for_rows int_of_str ip_address server vlan_map api).

Lemma process_row_events row counts st :
  session_csrf (process_row' row counts st).2 = session_csrf st
  /\ exists evs,
       log (process_row' row counts st).2 = log st ++ evs
       /\ Forall (row_event_ok ip_address vlan_map api (session_csrf st)) evs.
Proof.
  destruct counts as [sc ec]. unfold process_row, int_field, send. unfold_M.
  repeat case_match; simplify_eq; (split; [reflexivity|]); name_events;
    repeat constructor.
  all: cbn [method url csrf_header body]; repeat split; try reflexivity.
  all: eexists; split; [reflexivity|].
  all: match goal with H : negb (truthy _) = false |- _ =>
         apply negb_false_iff in H end.
  all: match goal with H : negb (ip_address _) = false |- _ =>
         apply negb_false_iff in H end.
  all: unfold payload_ok;
    cbn [use_fixedip vlan_enabled note vlan network_id fixed_ip mac name];
    repeat split; auto using vlan_get_truthy, TextFacts.strip_idem.
  all: apply (normalize_mac_twice _).
Qed.

Lemma for_rows_events fieldnames records counts st :
  session_csrf (for_rows' fieldnames records counts st).2 = session_csrf st
  /\ exists evs,
       log (for_rows' fieldnames records counts st).2 = log st ++ evs
       /\ Forall (row_event_ok ip_address vlan_map api (session_csrf st)) evs.
Proof.
  revert counts st.
  induction records as [|[[|x record]|] rest IH]; intros counts st.
  - split; [reflexivity|]. exists []. now rewrite app_nil_r.
  - apply IH.
  - rewrite for_rows_step.
    destruct (process_row_events (row_dict fieldnames (x :: record)) counts st)
      as (Hs & evs & Hlog & Hevs).
    destruct (process_row' _ counts st) as [[counts1| |e] st1]; simpl in *; eauto.
    destruct (IH counts1 st1) as (Hs' & evs' & Hlog' & Hevs').
    split; [congruence|]. exists (evs ++ evs').
    rewrite Hlog', Hlog, app_assoc. split; [reflexivity|].
    apply Forall_app. split; [assumption|]. now rewrite <- Hs.
  - split; [reflexivity|]. exists []. now rewrite app_nil_r.
Qed.

Lemma upserts_of_row_events csrf evs :
  Forall (row_event_ok ip_address vlan_map api csrf) evs ->
  Forall (payload_ok ip_address vlan_map) (upserts evs).
Proof.
  induction 1 as [|ev evs Hev _ IH]; [constructor|].
  change (ev :: evs) with ([ev] ++ evs). rewrite upserts_app.
  apply Forall_app. split; [|exact IH].
  destruct ev as [m|[mt u c b]]; [constructor|].
  destruct Hev as (_ & _ & _ & p & Hb & Hp). simpl in Hb. subst b.
  cbn. constructor; [exact Hp | constructor].
Qed.

(** X5. Every request the row loop makes is a POST to the user endpoint
    with the session's CSRF header and a payload whose flags are set, whose
    network identifier is the truthy value the VLAN map binds to its VLAN,
    whose IP passed validation and is trimmed, whose MAC is normalised and
    whose name is trimmed; the loop leaves the session header alone. *)
Theorem row_loop_requests fieldnames records counts st :
  session_csrf (for_rows' fieldnames records counts st).2 = session_csrf st
  /\ exists evs,
       log (for_rows' fieldnames records counts st).2 = log st ++ evs
       /\ Forall (row_event_ok ip_address vlan_map api (session_csrf st)) evs
       /\ Forall (payload_ok ip_address vlan_map) (upserts evs).
Proof.
  destruct (for_rows_events fieldnames records counts st) as (Hs & evs & Hlog & Hevs).
  split; [exact Hs|]. exists evs. split; [exact Hlog|]. split; [exact Hevs|].
  now apply upserts_of_row_events with (csrf := session_csrf st).
Qed.

Lemma process_row_lines row sc ec st sc' ec' st' :
  process_row' row (sc, ec) st = (Done (sc', ec'), st') ->
  exists evs,
    log st' = log st ++ evs
    /\ sc' = (sc + count_events is_ok_line evs)%nat
    /\ ec' = (ec + count_events is_error_line evs)%nat
    /\ length (upserts evs)
       = (count_events is_ok_line evs + count_events is_failed_line evs)%nat.
Proof.
  unfold process_row, int_field, send. unfold_M.
  intros H. repeat case_match; simplify_eq; name_events;
    cbn; repeat split; lia.
Qed.

(** X6. When the row loop runs to its end, the counters it returns agree
    with the lines it printed: [success_count] grew by the number of
    success lines, [error_count] by the number of warning and failure
    lines, and the requests it sent are as many as the success and failure
    lines together. *)
Theorem counters_match_lines fieldnames records sc ec st sc' ec' st' :
  for_rows' fieldnames records (sc, ec) st = (Done (sc', ec'), st') ->
  exists evs,
    log st' = log st ++ evs
    /\ sc' = (sc + count_events is_ok_line evs)%nat
    /\ ec' = (ec + count_events is_error_line evs)%nat
    /\ length (upserts evs)
       = (count_events is_ok_line evs + count_events is_failed_line evs)%nat.
Proof.
  revert sc ec st.
  induction records as [|[[|x record]|] rest IH]; intros sc ec st H.
  - simpl in H. unfold_M. simplify_eq. exists [].
    rewrite app_nil_r. cbn. repeat split; lia.
  - simpl in H. now apply IH in H.
  - rewrite for_rows_step in H.
    destruct (process_row' _ (sc, ec) st) as [[[sc1 ec1]| |e] st1] eqn:Hrow;
      try discriminate.
    apply process_row_lines in Hrow as (evs & Hlog & Hsc & Hec & Hup).
    apply IH in H as (evs' & Hlog' & Hsc' & Hec' & Hup').
    exists (evs ++ evs'). rewrite Hlog', Hlog, app_assoc.
    rewrite !count_events_app, upserts_app, length_app.
    repeat split; lia.
  - simpl in H. discriminate.
Qed.

End RowLoop.

(** ** More on the whole run *)

Lemma for_rows_app int_of_str ip_address server vlan_map api fieldnames
    records1 records2 counts st :
  for_rows int_of_str ip_address server vlan_map api fieldnames
    (records1 ++ records2) counts st
  = match for_rows int_of_str ip_address server vlan_map api fieldnames
            records1 counts st with
    | (Done counts', st') =>
        for_rows int_of_str ip_address server vlan_map api fieldnames
          records2 counts' st'
    | other => other
    end.
Proof.
  revert counts st.
  induction records1 as [|[[|x record]|] rest IH]; intros counts st.
  - reflexivity.
  - apply IH.
  - rewrite <- app_comm_cons, !for_rows_step.
    destruct (process_row _ _ _ _ _ _ _ _) as [[counts1| |e] st1]; auto.
  - reflexivity.
Qed.

Section BindFacts.

Context {A B : Type} (P : event -> Prop).

(** What a continuation adds comes after what the first part logged. *)
Lemma bind_extends (m : M A) (f : A -> M B) st :
  (forall a st', emits_at P (f a) st') ->
  exists evs, log ((m ≫= f) st).2 = log (m st).2 ++ evs /\ Forall P evs.
Proof.
  intros Hf. unfold mbind, M_mbind, M_bind.
  destruct (m st) as [[a| |e] st1]; simpl.
  - apply Hf.
  - exists []. now rewrite app_nil_r.
  - exists []. now rewrite app_nil_r.
Qed.

Lemma try_except_extends (body : M A) handler st :
  (forall e h st', handler e = Some h -> emits_at P h st') ->
  exists evs, log (try_except body handler st).2 = log (body st).2 ++ evs /\ Forall P evs.
Proof.
  intros Hh. unfold try_except.
  destruct (body st) as [[a| |e] st1]; simpl.
  - exists []. now rewrite app_nil_r.
  - exists []. now rewrite app_nil_r.
  - destruct (handler e) as [h|] eqn:He; [now apply (Hh e)|].
    exists []. now rewrite app_nil_r.
Qed.

End BindFacts.

Section Keeps.

Context {A B : Type}.

Lemma bind_done (m : M A) (f : A -> M B) st b st2 :
  (m ≫= f) st = (Done b, st2) ->
  exists a st1, m st = (Done a, st1) /\ f a st1 = (Done b, st2).
Proof.
  unfold mbind, M_mbind, M_bind.
  destruct (m st) as [[a| |e] st1]; try discriminate. eauto.
Qed.

Lemma keeps_same (m : M A) : (forall st, (m st).2 = st) -> keeps_session m.
Proof. intros H st. now rewrite H. Qed.

Lemma keeps_bind (m : M A) (f : A -> M B) :
  keeps_session m -> (forall a, keeps_session (f a)) -> keeps_session (m ≫= f).
Proof.
  intros Hm Hf st. unfold mbind, M_mbind, M_bind.
  specialize (Hm st). destruct (m st) as [[a| |e] st1]; simpl in *; auto.
  now rewrite Hf.
Qed.

End Keeps.

Lemma keeps_print m : keeps_session (print m).
Proof. intros st. reflexivity. Qed.

Lemma keeps_send server m u b : keeps_session (send server m u b).
Proof. intros st. unfold send. now destruct (server _ _). Qed.

Lemma keeps_raise_for_status r : keeps_session (raise_for_status r).
Proof. unfold raise_for_status. now destruct (ok r). Qed.

Lemma keeps_getitem {V} (d : gmap string V) key : keeps_session (getitem d key).
Proof. unfold getitem. now destruct (d !! key). Qed.

Lemma keeps_int_json int_of_str v : keeps_session (int_json int_of_str v).
Proof.
  destruct v; try (intros st; reflexivity).
  unfold int_json, int_field. now destruct (int_of_str s).
Qed.

(** Apply the rule for the construct at the head of a [keeps_session]
    goal. *)
Ltac keeps_step :=
  lazymatch goal with
  | |- keeps_session (mbind _ _) => apply keeps_bind; [|intros ?]
  | |- keeps_session (mret _) => intros ?; reflexivity
  | |- keeps_session (raise _) => intros ?; reflexivity
  | |- keeps_session (print _) => apply keeps_print
  | |- keeps_session (debug _) => apply keeps_print
  | |- keeps_session (send _ _ _ _) => apply keeps_send
  | |- keeps_session (raise_for_status _) => apply keeps_raise_for_status
  | |- keeps_session (getitem _ _) => apply keeps_getitem
  | |- keeps_session (int_json _ _) => apply keeps_int_json
  | |- keeps_session (if ?b then _ else _) => destruct b
  | |- keeps_session (match ?x with _ => _ end) => destruct x
  end.

Lemma for_nets_keeps int_of_str nets maps :
  keeps_session (for_nets int_of_str nets maps).
Proof.
  revert maps. induction nets as [|net rest IH]; intros maps; simpl.
  - intros st. reflexivity.
  - apply keeps_bind; [|apply IH].
    unfold net_step. destruct maps. repeat keeps_step.
Qed.

Section RunExtras.

Variable int_of_str : string -> option Z.
Variable ip_address : string -> bool.
Variable cfg : secrets.
Variable server : controller.

Local Abbreviation connect' := (connect int_of_str cfg server).
Local Abbreviation with_csv' := (with_csv int_of_str ip_address server).
Local Abbreviation import_csv' := (import_csv int_of_str ip_address cfg server).
Local Abbreviation main_try' := (main_try int_of_str ip_address cfg server).
Local Abbreviation main' := (main int_of_str ip_address cfg server).

(** The run opens with the greeting and the login request. *)
Lemma connect_starts st :
  exists evs,
    log (connect' st).2
    = log st ++ Print (MsgConnecting (UDM cfg))
             :: Http (login_request cfg (session_csrf st)) :: evs.
Proof.
  unfold connect.
  match goal with
  | |- context [mbind ?f (print ?m)] =>
      change ((mbind f (print m)) st) with (f tt (logged st [Print m]))
  end.
  cbv beta.
  match goal with
  | |- context [mbind ?f (send ?srv ?mt ?u ?b)] =>
      destruct (bind_extends (fun _ => True) (send srv mt u b) f
                  (logged st [Print (MsgConnecting (UDM cfg))]))
        as (evs & Hlog & _)
  end.
  - intros r st'.
    repeat first
      [ apply for_nets_emits; intros; exact I
      | emits_step; try exact I ].
  - exists evs. rewrite Hlog. unfold send, login_request, logged. simpl.
    destruct (server _ _); simpl; now rewrite <- !app_assoc.
Qed.

(** After [connect] the session carries a non-empty CSRF token. *)
Lemma connect_done_csrf st vlan_map st1 :
  connect' st = (Done vlan_map, st1) ->
  exists token, session_csrf st1 = Some token /\ token <> "".
Proof.
  unfold connect. intros H.
  do 5 (apply bind_done in H as (? & ? & _ & H)).
  apply bind_done in H as (csrf & st5 & Hcsrf & H).
  apply bind_done in H as ([] & st6 & Hset & H).
  assert (csrf <> "") as Hne.
  { destruct (x_csrf_token _) as [t|]; [|discriminate].
    destruct (String.eqb t "") eqn:Ht; [discriminate|].
    unfold_M. simplify_eq. now apply String.eqb_neq in Ht. }
  unfold set_csrf in Hset. simplify_eq.
  match type of H with
  | ?rest ?s = _ =>
      assert (keeps_session rest) as Hk
        by (repeat first [ apply for_nets_keeps | keeps_step ]);
      specialize (Hk s); rewrite H in Hk
  end.
  exists csrf. split; [exact Hk | exact Hne].
Qed.

End RunExtras.

Section RunProps.

Variable int_of_str : string -> option Z.
Variable ip_address : string -> bool.
Variable cfg : secrets.
Variable server : controller.

Local Abbreviation connect' := (connect int_of_str cfg server).
Local Abbreviation with_csv' := (with_csv int_of_str ip_address server).
Local Abbreviation import_csv' := (import_csv int_of_str ip_address cfg server).
Local Abbreviation main_try' := (main_try int_of_str ip_address cfg server).
Local Abbreviation main' := (main int_of_str ip_address cfg server).

Lemma not_upsert_authenticated ev :
  is_upsert ev = false -> upsert_authenticated cfg ev.
Proof.
  intros Hev r p -> Hb. destruct r as [mt u c b]. simpl in *. subst b. discriminate.
Qed.

Lemma with_csv_authenticated vlan_map csv st token :
  session_csrf st = Some token -> token <> "" ->
  emits_at (upsert_authenticated cfg) (with_csv' vlan_map (api cfg) csv) st.
Proof.
  intros Hs Hne. unfold emits_at.
  destruct csv as [| |[|[names|] rest]];
    try (exists []; rewrite app_nil_r; split; [reflexivity | constructor]).
  unfold with_csv, read_fieldnames, has_required. unfold_M. cbn [default tail].
  destruct (forallb _ required_fields); cbn [negb].
  - destruct (for_rows_events int_of_str ip_address server vlan_map (api cfg)
                names rest (0%nat, 0%nat) st) as (_ & evs & Hlog & Hevs).
    assert (Forall (upsert_authenticated cfg) evs) as Hauth.
    { eapply Forall_impl; [exact Hevs|].
      intros [m|r] Hev r' p [= <-] Hb; simpl in Hev.
      destruct Hev as (Hm & Hu & Hc & _). rewrite Hs in Hc. eauto. }
    destruct (for_rows _ _ _ _ _ _ _ _ st) as [[[sc ec]| |e] st2]; simpl in *.
    + exists (evs ++ [Print (MsgSummary sc ec)]). rewrite Hlog, app_assoc.
      split; [reflexivity|]. apply Forall_app. split; [assumption|].
      constructor; [now apply not_upsert_authenticated | constructor].
    + eauto.
    + eauto.
  - exists [Print MsgCsvColumns]. split; [reflexivity|].
    constructor; [now apply not_upsert_authenticated | constructor].
Qed.

(** X7. Every reservation request of a run is a POST to the user endpoint
    of the site and carries a non-empty CSRF token: nothing is reserved
    before the login and the token fetch succeeded. *)
Theorem reservations_authenticated csv st :
  exists evs,
    log (main' csv st).2 = log st ++ evs
    /\ Forall (upsert_authenticated cfg) evs.
Proof.
  unfold main, main_try. apply emits_at_try_finally.
  - apply emits_at_try_except.
    + apply emits_at_bind.
      * apply connect_emits. intros ev _. apply not_upsert_authenticated.
      * intros vlan_map st1 Hconnect.
        destruct (connect_done_csrf int_of_str cfg server st vlan_map st1 Hconnect)
          as (token & Hs & Hne).
        unfold import_csv. apply emits_at_try_except.
        -- now apply with_csv_authenticated with (token := token).
        -- intros e h st2 _ Hh. destruct e; simplify_eq.
           repeat (emits_step; try (now apply not_upsert_authenticated)).
    + intros e h st1 _ Hh.
      destruct e; simplify_eq; apply emits_at_print;
        now apply not_upsert_authenticated.
  - apply logout_emits. intros ev _. apply not_upsert_authenticated.
Qed.

(** X8. The first request of every run is the login and the last one is
    the logout, whatever happens in between. *)
Theorem login_first_logout_last csv st :
  exists between csrf,
    requests (log (main' csv st).2)
    = requests (log st)
      ++ login_request cfg (session_csrf st) :: between
      ++ [logout_request cfg csrf].
Proof.
  rewrite main_run. cbn [snd logged log].
  destruct (connect_starts int_of_str cfg server st) as (evs0 & Hlog0).
  destruct (try_except_extends (fun _ => True)
              (connect' ≫= fun vlan_map => import_csv' vlan_map csv)
              (fun e => match e with
                        | RequestException => Some (print (MsgNetworkError e))
                        | _ => Some (print (MsgError e))
                        end) st) as (evs2 & Hlog2 & _).
  { intros e h st' Hh. destruct e; simplify_eq; now apply emits_at_print. }
  destruct (bind_extends (fun _ => True) connect'
              (fun vlan_map => import_csv' vlan_map csv) st) as (evs1 & Hlog1 & _).
  { intros vlan_map st'. unfold import_csv. apply emits_at_try_except.
    - destruct (with_csv_emits_summary_ok int_of_str ip_address server vlan_map
                  (api cfg) csv st') as (evs' & Hlog & _).
      exists evs'. split; [exact Hlog | now apply Forall_forall].
    - intros e h st2 _ Hh. destruct e; simplify_eq.
      repeat (emits_step; try exact I). }
  assert (forall s, requests (logout_events cfg server s)
                    = [logout_request cfg (session_csrf s)]) as Hout.
  { intros s. unfold logout_events, requests. now destruct (server _ _). }
  exists (requests evs0 ++ requests evs1 ++ requests evs2),
    (session_csrf (main_try' csv st).2).
  rewrite requests_app, Hout.
  change (log (main_try' csv st).2) with
    (log (try_except (connect' ≫= fun vlan_map => import_csv' vlan_map csv)
            (fun e => match e with
                      | RequestException => Some (print (MsgNetworkError e))
                      | _ => Some (print (MsgError e))
                      end) st).2).
  rewrite Hlog2, Hlog1, Hlog0, !requests_app.
  change (requests (Print (MsgConnecting (UDM cfg))
                    :: Http (login_request cfg (session_csrf st)) :: evs0))
    with (login_request cfg (session_csrf st) :: requests evs0).
  rewrite <- !app_assoc. cbn [app]. rewrite <- ?app_assoc. reflexivity.
Qed.

End RunProps.

(** ** The ways a run ends early *)

Section RunCases.

Variable int_of_str : string -> option Z.
Variable ip_address : string -> bool.
Variable cfg : secrets.
Variable server : controller.

Local Abbreviation connect' := (connect int_of_str cfg server).
Local Abbreviation for_rows' := (for_rows int_of_str ip_address server).
Local Abbreviation main_try' := (main_try int_of_str ip_address cfg server).
Local Abbreviation main' := (main int_of_str ip_address cfg server).

(** X9. When the login request gets no answer, or an answer with an error
    status, the run makes no other request but the logout: it prints the
    network error and ends normally. *)
Theorem login_failure_ends_run csv st :
  let st0 := logged st [Print (MsgConnecting (UDM cfg))] in
  let rq := login_request cfg (session_csrf st) in
  (server (log st0) rq = None
   \/ exists r, server (log st0) rq = Some r /\ ok r = false) ->
  let st1 := logged st [Print (MsgConnecting (UDM cfg)); Http rq;
                        Print (MsgNetworkError RequestException)] in
  main' csv st = (Done tt, logged st1 (logout_events cfg server st1)).
Proof.
  intros st0 rq Hlogin st1.
  assert (main_try' csv st = (Done tt, st1)) as Htry.
  { unfold main_try, try_except, connect, send, raise_for_status. unfold_M.
    subst st0 rq st1. unfold login_request, logged in *. cbn [log session_csrf] in *.
    destruct Hlogin as [-> | (r & -> & Hr)].
    - cbn. now rewrite <- !app_assoc.
    - cbn. rewrite Hr. cbn. now rewrite <- !app_assoc. }
  rewrite main_run, Htry. reflexivity.
Qed.

(** X10. When the login succeeds but the answer to the [self] request has
    no [x-csrf-token] header, or an empty one, the run stops there: it
    prints the error, requests nothing else but the logout, and ends
    normally. *)
Theorem missing_csrf_ends_run csv st r1 r2 :
  let st0 := logged st [Print (MsgConnecting (UDM cfg))] in
  let rq1 := login_request cfg (session_csrf st) in
  let rq2 := self_request cfg (session_csrf st) in
  server (log st0) rq1 = Some r1 -> ok r1 = true ->
  server (log st0 ++ [Http rq1]) rq2 = Some r2 -> ok r2 = true ->
  (x_csrf_token r2 = None \/ x_csrf_token r2 = Some "") ->
  let st2 := logged st [Print (MsgConnecting (UDM cfg)); Http rq1; Http rq2;
                        Print (MsgError RuntimeError)] in
  main' csv st = (Done tt, logged st2 (logout_events cfg server st2)).
Proof.
  intros st0 rq1 rq2 H1 Hok1 H2 Hok2 Htoken st2.
  assert (main_try' csv st = (Done tt, st2)) as Htry.
  { unfold main_try, try_except, connect, send, raise_for_status. unfold_M.
    subst st0 rq1 rq2 st2. unfold login_request, self_request, logged in *.
    cbn [log session_csrf] in *.
    rewrite H1. cbn. rewrite Hok1. cbn. rewrite H2. cbn. rewrite Hok2. cbn.
    destruct Htoken as [-> | ->]; cbn; now rewrite <- !app_assoc. }
  rewrite main_run, Htry. reflexivity.
Qed.

(** X11. A row whose VLAN field is not an integer stops the import at that
    row: the rows before it were processed (their requests stay made), the
    rows after it are never looked at, no summary is printed, and the run
    prints the error and ends normally. *)
Theorem non_integer_vlan_aborts header before x record rest st0 vlan_map st counts1 st1 s :
  connect' st0 = (Done vlan_map, st) ->
  forallb (fun field => bool_decide (field ∈ header)) required_fields = true ->
  for_rows' vlan_map (api cfg) header before (0%nat, 0%nat) st = (Done counts1, st1) ->
  row_dict header (x :: record) !! "VLAN" = Some (Some s) ->
  int_of_str s = None ->
  main_try' (Records (Some header :: before ++ Some (x :: record) :: rest)) st0
  = (Done tt, logged st1 [Print (MsgError ValueError)]).
Proof.
  intros Hconnect Hhdr Hbefore HV Hs.
  unfold main_try, try_except, mbind, M_mbind, M_bind. rewrite Hconnect.
  unfold import_csv, try_except, with_csv, read_fieldnames, has_required. unfold_M.
  rewrite Hhdr. cbn [negb default tail id].
  rewrite for_rows_app, Hbefore, for_rows_step.
  assert (process_row int_of_str ip_address server vlan_map (api cfg)
            (row_dict header (x :: record)) counts1 st1
          = (Raised ValueError, st1)) as ->.
  { destruct counts1. unfold process_row, int_field. unfold_M.
    rewrite HV. simpl. now rewrite Hs. }
  reflexivity.
Qed.

(** X12. What goes wrong with the file itself, once the session is set up:
    a missing [devices.csv] is reported by its own line and [main()]
    returns; a file that cannot be opened for another reason, or an empty
    file, ends up as a generic error line. *)
Theorem csv_file_failures st vlan_map st1 :
  connect' st = (Done vlan_map, st1) ->
  main_try' NoSuchFile st = (Returned, logged st1 [Print MsgCsvNotFound])
  /\ main_try' OpenFails st = (Done tt, logged st1 [Print (MsgError OSError)])
  /\ main_try' (Records []) st = (Done tt, logged st1 [Print (MsgError TypeError)]).
Proof.
  intros Hconnect.
  unfold main_try, try_except, mbind, M_mbind, M_bind. rewrite Hconnect.
  repeat split.
Qed.

End RunCases.

(** ** The network loop, once more *)

Lemma net_step_buildable int_of_str net maps st maps1 st1 :
  net_step int_of_str net maps st = (Done maps1, st1) -> buildable int_of_str net.
Proof.
  destruct maps as [vlan_map subnet_map]. unfold net_step, buildable.
  destruct (corporate_default net) eqn:Hcd.
  - rewrite (corporate_default_rule int_of_str net Hcd). unfold_M.
    destruct (net !! "_id") as [id|]; intros H; simplify_eq. eauto.
  - rewrite (not_corporate_default_rule int_of_str net Hcd).
    destruct (net !! "vlan") as [v|]; simpl.
    + unfold mbind at 1, M_mbind, M_bind.
      destruct (int_json int_of_str v st) as [[n| |e] st2] eqn:Hint; try discriminate.
      apply int_json_done in Hint as [-> ->]. unfold_M.
      destruct (net !! "_id") as [id|]; intros H; simplify_eq. eauto.
    + intros _. split; intros [? ?]; discriminate.
Qed.

(** X13. The network loop never skips an object it cannot take: if it runs
    to its end, every object with a [vlan] field that was looked at had one
    that coerces to an integer, and every object that was mapped had an
    [_id].  (A corporate object without [_id], or a [vlan] that is null or
    not a number, makes the loop raise instead.) *)
Theorem network_loop_takes_all int_of_str nets maps st maps' st' :
  for_nets int_of_str nets maps st = (Done maps', st') ->
  Forall (buildable int_of_str) nets.
Proof.
  revert maps st. induction nets as [|net rest IH]; intros maps st H.
  - constructor.
  - cbn [for_nets] in H. unfold mbind, M_mbind, M_bind in H.
    destruct (net_step int_of_str net maps st) as [[maps1| |e] st1] eqn:Hstep;
      try discriminate.
    constructor.
    + now apply net_step_buildable in Hstep.
    + now apply IH in H.
Qed.

(** ** The further properties at work *)

Lemma other_columns_ignored_witness :
  process_row PyLib.int_of_str PyLib.ip_address Demo.server Demo.vlans "/rest/user"
    (row_dict Cases.wide_header Cases.wide_row) (0%nat, 0%nat) initial
  = process_row PyLib.int_of_str PyLib.ip_address Demo.server Demo.vlans "/rest/user"
      (row_dict Demo.header Demo.row_a) (0%nat, 0%nat) initial.
Proof.
  apply other_columns_ignored. intros k Hk. unfold required_fields in Hk.
  repeat (apply elem_of_cons in Hk as [->|Hk]; [vm_compute; reflexivity|]).
  now apply elem_of_nil in Hk.
Defined.

Lemma controller_answer_decides_witness :
  (for_rows PyLib.int_of_str PyLib.ip_address Cases.rejecting Demo.vlans "/rest/user"
     Demo.header [Some Demo.row_a; Some Demo.row_b] (0%nat, 0%nat) initial).1
  = Done (0%nat, 2%nat).
Proof.
  unfold Demo.row_a.
  rewrite (controller_answer_decides PyLib.int_of_str PyLib.ip_address Cases.rejecting
             Demo.vlans "/rest/user" Demo.header "10"
             ["00-11-22-33-44-55"; "printer"; "10.0.10.5"] [Some Demo.row_b]
             0%nat 0%nat initial "10" 10 "00-11-22-33-44-55" "10.0.10.5" "printer").
  - vm_compute. reflexivity.
  - vm_compute. reflexivity.
  - vm_compute. reflexivity.
  - vm_compute. reflexivity.
  - vm_compute. reflexivity.
  - vm_compute. reflexivity.
  - vm_compute. reflexivity.
  - vm_compute. reflexivity.
Defined.

Lemma counters_match_lines_witness :
  exists evs,
    log (for_rows PyLib.int_of_str PyLib.ip_address Demo.server Demo.vlans "/rest/user"
           Demo.header [Some Demo.row_a; Some Demo.row_b; Some Demo.row_c]
           (0%nat, 0%nat) initial).2
    = log initial ++ evs
    /\ 1%nat = (0 + count_events is_ok_line evs)%nat
    /\ 2%nat = (0 + count_events is_error_line evs)%nat
    /\ length (upserts evs)
       = (count_events is_ok_line evs + count_events is_failed_line evs)%nat.
Proof.
  apply (counters_match_lines PyLib.int_of_str PyLib.ip_address Demo.server Demo.vlans
           "/rest/user" Demo.header [Some Demo.row_a; Some Demo.row_b; Some Demo.row_c]).
  vm_compute. reflexivity.
Defined.

Lemma login_failure_ends_run_witness :
  requests (log (main PyLib.int_of_str PyLib.ip_address Demo.cfg Cases.denying
                   Demo.devices initial).2)
  = [login_request Demo.cfg None; logout_request Demo.cfg None].
Proof.
  rewrite (login_failure_ends_run PyLib.int_of_str PyLib.ip_address Demo.cfg
             Cases.denying Demo.devices initial).
  - vm_compute. reflexivity.
  - right. exists Cases.refusal. split; vm_compute; reflexivity.
Defined.

Lemma missing_csrf_ends_run_witness :
  requests (log (main PyLib.int_of_str PyLib.ip_address Demo.cfg Cases.tokenless
                   Demo.devices initial).2)
  = [login_request Demo.cfg None; self_request Demo.cfg None;
     logout_request Demo.cfg None].
Proof.
  rewrite (missing_csrf_ends_run PyLib.int_of_str PyLib.ip_address Demo.cfg
             Cases.tokenless Demo.devices initial
             {| ok := true; x_csrf_token := None; text := "";
                json_data := inr Demo.networks |}
             {| ok := true; x_csrf_token := None; text := "";
                json_data := inr Demo.networks |}).
  - vm_compute. reflexivity.
  - vm_compute. reflexivity.
  - reflexivity.
  - vm_compute. reflexivity.
  - reflexivity.
  - left. reflexivity.
Defined.

Lemma non_integer_vlan_aborts_witness :
  exists st1,
    main_try PyLib.int_of_str PyLib.ip_address Demo.cfg Demo.server
      Cases.bad_vlan_csv initial
    = (Done tt, logged st1 [Print (MsgError ValueError)])
    /\ length (upserts (log st1)) = 1%nat.
Proof.
  exists (for_rows PyLib.int_of_str PyLib.ip_address Demo.server Demo.vlans
            (api Demo.cfg) Demo.header [Some Demo.row_a] (0%nat, 0%nat)
            Cases.connected).2.
  split; [|vm_compute; reflexivity].
  apply (non_integer_vlan_aborts PyLib.int_of_str PyLib.ip_address Demo.cfg Demo.server
           Demo.header [Some Demo.row_a] "ten"
           ["00-11-22-33-44-aa"; "scanner"; "10.0.10.7"] [Some Demo.row_b]
           initial Demo.vlans Cases.connected (1%nat, 0%nat) _ "ten").
  - vm_compute. reflexivity.
  - vm_compute. reflexivity.
  - vm_compute. reflexivity.
  - vm_compute. reflexivity.
  - vm_compute. reflexivity.
Defined.

Lemma csv_file_failures_witness :
  main_try PyLib.int_of_str PyLib.ip_address Demo.cfg Demo.server NoSuchFile initial
  = (Returned, logged Cases.connected [Print MsgCsvNotFound]).
Proof.
  apply (csv_file_failures PyLib.int_of_str PyLib.ip_address Demo.cfg Demo.server
           initial Demo.vlans Cases.connected).
  vm_compute. reflexivity.
Defined.

Lemma network_loop_takes_all_witness :
  Forall (buildable PyLib.int_of_str) Demo.networks.
Proof.
  apply (network_loop_takes_all PyLib.int_of_str Demo.networks (∅, ∅) initial
           (Demo.vlans, Demo.subnets)
           (for_nets PyLib.int_of_str Demo.networks (∅, ∅) initial).2).
  vm_compute. reflexivity.
Defined.
